(** * wazero-sqlite: the host side of the SQLite-in-Wasm bridge

    A shallow embedding of [main.go].  The Go program drives a SQLite build
    compiled to WebAssembly through the wazero runtime: it calls exported
    functions that exchange 64-bit integers only, and it reads and writes
    the instance's linear memory.

    The guest (the Wasm instance) is opaque: it is an interface with three
    operations, instantiated by a scripted guest for the concrete runs.
    Everything the host does is a computation over a [World] holding the
    [sqliteModule] struct, the instance (memory and hidden guest state)
    and the chronological list of interactions with the runtime. *)

From Stdlib Require Import ZArith List String Bool Lia.
From Stdlib Require Import Strings.Byte.
Import ListNotations.

Local Open Scope Z_scope.

Abbreviation byte := Byte.byte.

(* ================================================================== *)
(** * Go's fixed-width integers *)

(** [uint64(x)], [uint32(x)]: wrap-around to the width. *)
Definition uint64 (z : Z) : Z := z mod 2 ^ 64.
Definition uint32 (z : Z) : Z := z mod 2 ^ 32.

(** [int(x)] for a [uint64] [x] on a 64-bit target: the same 64 bits read
    in two's complement. *)
Definition int (z : Z) : Z := (z + 2 ^ 63) mod 2 ^ 64 - 2 ^ 63.

(** [len(str)] *)
Definition len {A} (l : list A) : Z := Z.of_nat (List.length l).

(** [const SQLITE_ROW = 100] *)
Definition SQLITE_ROW : Z := 100.

(** A Go [string] is an immutable byte sequence. *)
Definition gostring := list byte.

Definition str (s : string) : gostring := list_byte_of_string s.

(* ================================================================== *)
(** * The runtime's memory interface ([api.Memory])

    [Read], [ReadUint32Le] and [Write] answer [ok = false] (here [None])
    when the range [offset, offset + byteCount) is not inside the buffer,
    and touch nothing in that case. *)

Module Memory.

Definition Size (buf : list byte) : Z := len buf.

Definition hasSize (buf : list byte) (offset byteCount : Z) : bool :=
  offset + byteCount <=? Size buf.

Definition slice (buf : list byte) (offset byteCount : Z) : list byte :=
  firstn (Z.to_nat byteCount) (skipn (Z.to_nat offset) buf).

Definition Read (buf : list byte) (offset byteCount : Z)
  : option (list byte) :=
  if hasSize buf offset byteCount then Some (slice buf offset byteCount)
  else None.

Definition byteAt (b : list byte) (i : nat) : Z :=
  Z.of_N (Byte.to_N (nth i b Byte.x00)).

(** [binary.LittleEndian.Uint32] *)
Definition Uint32 (b : list byte) : Z :=
  Z.lor (Z.lor (Z.lor (byteAt b 0) (Z.shiftl (byteAt b 1) 8))
               (Z.shiftl (byteAt b 2) 16))
        (Z.shiftl (byteAt b 3) 24).

Definition ReadUint32Le (buf : list byte) (offset : Z) : option Z :=
  if hasSize buf offset 4 then Some (Uint32 (slice buf offset 4))
  else None.

Definition Write (buf : list byte) (offset : Z) (v : list byte)
  : option (list byte) :=
  if hasSize buf offset (len v)
  then Some (firstn (Z.to_nat offset) buf ++ v
               ++ skipn (Z.to_nat (offset + len v)) buf)
  else None.

End Memory.

(* ================================================================== *)
(** * The instance and the runtime *)

(** A module instance: its linear memory and whatever else the guest
    keeps (the database, the result slot, the allocator state). *)
Record Machine (G : Type) : Type := mkMachine {
  buffer : list byte;
  guest : G
}.
Arguments mkMachine {G} _ _.
Arguments buffer {G} _.
Arguments guest {G} _.

(** What the host consumes from wazero.
    - [InstantiateModule]: [r.InstantiateModule], [None] for [err != nil];
    - [exported name]: whether [ExportedFunction(name)] is non-nil;
    - [invoke name params m]: running an export.  The first component is
      [None] when the call returns an error (a trap); the guest may have
      changed its memory and state in either case. *)
Class Runtime (G : Type) : Type := {
  InstantiateModule : Machine G -> option (Machine G);
  exported : string -> bool;
  invoke : string -> list Z -> Machine G -> option (list Z) * Machine G
}.

(** [api.Function]: a reference to an export of the instance. *)
Definition Function := string.

(** [api.Memory]: the reference to the instance's memory. *)
Inductive MemoryRef : Type := InstanceMemory.

(** [type sqliteModule struct] *)
Record sqliteModule : Type := mkSqliteModule {
  memory : MemoryRef;
  open : option Function;
  exec : option Function;
  getResultPtr : option Function;
  getResultSize : option Function;
  prepare : option Function;
  step : option Function;
  columnInt : option Function;
  columnText : option Function;
  alloc : option Function;
  dbHandle : Z
}.

(** [type user struct] *)
Record user : Type := mkUser {
  id : Z;
  name : gostring
}.

(** One interaction of the host with the runtime, with its answer. *)
Inductive Event : Type :=
| EvCall (f : string) (params : list Z) (results : option (list Z))
| EvRead (offset byteCount : Z) (ok : bool)
| EvReadUint32Le (offset : Z) (ok : bool)
| EvWrite (offset : Z) (v : list byte) (ok : bool).

(** The ways the program aborts.  Every [log.Panic*] of the source is one
    of the first four, told apart by what was checked before it:
    - [CallError]: [err != nil] after a [Function.Call];
    - [MemoryAccessError]: [!ok] after a memory read or write;
    - [StatementError]: the check [!ok || stmt == 0] of [execSelectUsers];
    - [EngineError]: [retCode != 0] in [ensureStatusCodeSuccess];
    [InstantiateError] is the panic on a failed instantiation.  The last
    two are panics of the Go runtime itself: a method call on a nil
    [api.Function], and [res[0]] on an empty result slice. *)
Inductive Failure : Type :=
| CallError (context : string)
| MemoryAccessError (context : string)
| StatementError (address : Z)
| EngineError (retCode : Z) (errMsg : gostring)
| InstantiateError
| NilDereference
| IndexOutOfRange.

(* ================================================================== *)
(** * Computations of the host *)

Section Host.

Context {G : Type} {RT : Runtime G}.

(** The struct [*s] on the heap, the instance, and what happened so far
    (oldest interaction first). *)
Record World : Type := mkWorld {
  self : sqliteModule;
  machine : Machine G;
  trace : list Event
}.

(** How a computation ends: it returns, it panics (the process aborts
    in the world reached), or the bound on the iterations of the row
    loop is used up before the loop exits. *)
Inductive Outcome (A : Type) : Type :=
| Ok (a : A) (w : World)
| Panic (e : Failure) (w : World)
| OutOfFuel (w : World).
Arguments Ok {A} _ _.
Arguments Panic {A} _ _.
Arguments OutOfFuel {A} _.

Definition M (A : Type) : Type := World -> Outcome A.

Definition ret {A} (a : A) : M A := fun w => Ok a w.

Definition bind {A B} (m : M A) (k : A -> M B) : M B :=
  fun w =>
    match m w with
    | Ok a w' => k a w'
    | Panic e w' => Panic e w'
    | OutOfFuel w' => OutOfFuel w'
    end.

Definition panic {A} (e : Failure) : M A := fun w => Panic e w.

Definition record (ev : Event) (w : World) : World :=
  mkWorld (self w) (machine w) (trace w ++ [ev]).

Definition isSome {A} (o : option A) : bool :=
  match o with Some _ => true | None => false end.

(** Reading [s]. *)
Definition this : M sqliteModule := fun w => Ok (self w) w.

(** [s := &sqliteModule{...}] *)
Definition setSelf (s : sqliteModule) : M unit :=
  fun w => Ok tt (mkWorld s (machine w) (trace w)).

(** [ExportedFunction(name)]: nil when the module has no such export. *)
Definition ExportedFunction (name : string) : option Function :=
  if exported name then Some name else None.

(** [f.Call(ctx, params...)]: the pair [(results, err)] as an option.
    The results are [uint64] by type.  A nil [f] is a panic of the Go
    runtime, before anything reaches the instance. *)
Definition Call (f : option Function) (params : list Z)
  : M (option (list Z)) :=
  fun w =>
    match f with
    | None => Panic NilDereference w
    | Some fname =>
        let (r, m') := invoke fname params (machine w) in
        let results := option_map (map uint64) r in
        Ok results
           (mkWorld (self w) m' (trace w ++ [EvCall fname params results]))
    end.

(** [s.memory.Read(ctx, offset, byteCount)] *)
Definition Read (offset byteCount : Z) : M (option (list byte)) :=
  fun w =>
    let r := Memory.Read (buffer (machine w)) offset byteCount in
    Ok r (record (EvRead offset byteCount (isSome r)) w).

(** [s.memory.ReadUint32Le(ctx, offset)] *)
Definition ReadUint32Le (offset : Z) : M (option Z) :=
  fun w =>
    let r := Memory.ReadUint32Le (buffer (machine w)) offset in
    Ok r (record (EvReadUint32Le offset (isSome r)) w).

(** [s.memory.Write(ctx, offset, v)] *)
Definition Write (offset : Z) (v : list byte) : M bool :=
  fun w =>
    match Memory.Write (buffer (machine w)) offset v with
    | Some buf' =>
        Ok true (mkWorld (self w) (mkMachine buf' (guest (machine w)))
                         (trace w ++ [EvWrite offset v true]))
    | None => Ok false (record (EvWrite offset v false) w)
    end.

(** [if err != nil { log.Panic... }] and [if !ok { log.Panic... }]:
    the value when there is one, the panic otherwise. *)
Definition orPanic {A} (m : M (option A)) (e : Failure) : M A :=
  bind m (fun r => match r with Some a => ret a | None => panic e end).

(** [res[0]] *)
Definition first (res : list Z) : M Z :=
  match res with
  | r0 :: _ => ret r0
  | [] => panic IndexOutOfRange
  end.

End Host.

Arguments Ok {G A} _ _.
Arguments Panic {G A} _ _.
Arguments OutOfFuel {G A} _.
Arguments World : clear implicits.
Arguments M : clear implicits.
Arguments Outcome : clear implicits.

Declare Scope host_scope.
Delimit Scope host_scope with host.
Notation "x <- m ;; k" := (bind m (fun x => k))
  (at level 61, m at next level, right associativity) : host_scope.
Notation "' p <- m ;; k" := (bind m (fun x => let p := x in k))
  (at level 61, p pattern, m at next level, right associativity) : host_scope.
Notation "m ;; k" := (bind m (fun _ => k))
  (at level 61, right associativity) : host_scope.

Local Open Scope host_scope.

(* ================================================================== *)
(** * The program *)

Section Program.

Context {G : Type} {RT : Runtime G}.

(** [func (s *sqliteModule) allocateString(str string) (ptr, size uint64)] *)
Definition allocateString (s : gostring) : M G (Z * Z) :=
  m <- this ;;
  res <- orPanic (Call (alloc m) [uint64 (len s); 0]) (CallError "") ;;
  ptr <- first res ;;
  ok <- Write (uint32 ptr) s ;;
  if negb ok then panic (MemoryAccessError "failed to write name")
  else ret (ptr, uint64 (len s)).

(** [func (s *sqliteModule) ensureStatusCodeSuccess(resultPpr uint32, errMsg string)] *)
Definition ensureStatusCodeSuccess (resultPpr : Z) (errMsg : gostring)
  : M G unit :=
  retCode <- orPanic (ReadUint32Le resultPpr)
               (MemoryAccessError "cannot read return code") ;;
  if negb (retCode =? 0) then panic (EngineError retCode errMsg)
  else ret tt.

(** [func (s *sqliteModule) execSql(query string)] *)
Definition execSql (query : gostring) : M G unit :=
  '(queryPtr, querySize) <- allocateString query ;;
  m <- this ;;
  orPanic (Call (exec m) [dbHandle m; queryPtr; querySize; 0; 0])
    (CallError "error execution query '%s': %v") ;;
  m <- this ;;
  res <- orPanic (Call (getResultPtr m) [])
           (CallError "error getting result ptr: %v") ;;
  r0 <- first res ;;
  errMsgPtr <- orPanic (ReadUint32Le (uint32 (uint64 (r0 + 4))))
                 (MemoryAccessError "cannot read err msg ptr") ;;
  errMsgSize <- orPanic (ReadUint32Le (uint32 (uint64 (r0 + 8))))
                  (MemoryAccessError "cannot read err msg size") ;;
  errMsg <- (if negb (errMsgSize =? 0)
             then orPanic (Read errMsgPtr errMsgSize)
                    (MemoryAccessError "cannot read err msg")
             else ret []) ;;
  ensureStatusCodeSuccess (uint32 r0) errMsg.

(** [func (s *sqliteModule) execStep(stmt uint32) int] *)
Definition execStep (stmt : Z) : M G Z :=
  m <- this ;;
  res <- orPanic (Call (step m) [uint64 stmt])
           (CallError "failed to call step: %v") ;;
  r0 <- first res ;;
  ret (int r0).

(** [func (s *sqliteModule) readInt(stmt uint32, columnIndex uint32) int] *)
Definition readInt (stmt columnIndex : Z) : M G Z :=
  m <- this ;;
  res <- orPanic (Call (columnInt m) [uint64 stmt; uint64 columnIndex])
           (CallError "failed to read %d-th column as integer: %v") ;;
  r0 <- first res ;;
  ret (int r0).

(** [func (s *sqliteModule) readText(stmt uint32, columnIndex uint32) string] *)
Definition readText (stmt columnIndex : Z) : M G gostring :=
  m <- this ;;
  orPanic (Call (columnText m) [uint64 stmt; uint64 columnIndex])
    (CallError "failed to read %d-th column as text: %v") ;;
  m <- this ;;
  textPtr <- orPanic (Call (getResultPtr m) [])
               (CallError "failed to get %d-th column text ptr: %v") ;;
  m <- this ;;
  textSize <- orPanic (Call (getResultSize m) [])
                (CallError "failed to get %d-th column text size: %v") ;;
  p0 <- first textPtr ;;
  s0 <- first textSize ;;
  let (ptr, size) := (uint32 p0, uint32 s0) in
  raw <- orPanic (Read ptr size)
           (MemoryAccessError "failed to read text(size=%d) at %d") ;;
  ret raw.

(** The first half of [execSelectUsers] (up to the check of the
    statement handle): the prepared statement of [query]. *)
Definition execSelectUsers_prepare (query : gostring) : M G Z :=
  '(queryPtr, querySize) <- allocateString query ;;
  m <- this ;;
  orPanic (Call (prepare m) [dbHandle m; queryPtr; querySize])
    (CallError "failed to call prepare query %s: %v") ;;
  m <- this ;;
  res <- orPanic (Call (getResultPtr m) [])
           (CallError "error getting result ptr: %v") ;;
  r0 <- first res ;;
  ensureStatusCodeSuccess (uint32 r0) (str "failed to prepare") ;;
  r <- ReadUint32Le (uint32 (uint64 (r0 + 4))) ;;
  match r with
  | Some stmt =>
      if stmt =? 0 then panic (StatementError (uint64 (r0 + 4)))
      else ret stmt
  | None => panic (StatementError (uint64 (r0 + 4)))
  end.

(** [for rc == SQLITE_ROW { ... }]: the loop of [execSelectUsers], entered
    with the code [rc] of the last step and the rows read so far.
    [fuel] bounds the number of times the condition is tested. *)
Fixpoint execSelectUsers_loop (fuel : nat) (stmt rc : Z) (users : list user)
  : M G (list user) :=
  match fuel with
  | O => fun w => OutOfFuel w
  | S fuel' =>
      if rc =? SQLITE_ROW then
        i <- readInt stmt 0 ;;
        n <- readText stmt 1 ;;
        let users' := users ++ [mkUser i n] in
        rc' <- execStep stmt ;;
        execSelectUsers_loop fuel' stmt rc' users'
      else ret users
  end.

(** [func (s *sqliteModule) execSelectUsers(query string) (users []*user)] *)
Definition execSelectUsers (fuel : nat) (query : gostring)
  : M G (list user) :=
  stmt <- execSelectUsers_prepare query ;;
  rc <- execStep stmt ;;
  execSelectUsers_loop fuel stmt rc [].

(** The middle of [newSqlModule] (from the two [allocateString] to the
    read of the handle): opens the database and returns the [uint32] read
    as its handle. *)
Definition newSqlModule_open : M G Z :=
  '(dbNamePtr, dbNameSize) <- allocateString (str ":memory:") ;;
  '(fsNamePTr, fsNameSize) <- allocateString (str "") ;;
  m <- this ;;
  orPanic (Call (open m) [dbNamePtr; dbNameSize; 6; fsNamePTr; fsNameSize])
    (CallError "") ;;
  m <- this ;;
  res <- orPanic (Call (getResultPtr m) []) (CallError "") ;;
  r0 <- first res ;;
  ensureStatusCodeSuccess (uint32 r0) (str "db pointer") ;;
  orPanic (ReadUint32Le (uint32 (uint64 (r0 + 4))))
    (MemoryAccessError "cannot take db pointer").

(** [func newSqlModule(r wazero.Runtime, compiledSqlite wazero.CompiledModule) *sqliteModule]
    The struct it builds is left in the world. *)
Definition newSqlModule : M G unit :=
  (fun w =>
     match InstantiateModule (machine w) with
     | Some sqlite => Ok tt (mkWorld (self w) sqlite (trace w))
     | None => Panic InstantiateError w
     end) ;;
  setSelf {|
    memory := InstanceMemory;
    open := ExportedFunction "sqlite3_open_v2";
    exec := ExportedFunction "sqlite3_exec";
    getResultPtr := ExportedFunction "get_result_ptr";
    getResultSize := ExportedFunction "get_result_size";
    alloc := ExportedFunction "allocate";
    prepare := ExportedFunction "sqlite3_prepare_v2";
    step := ExportedFunction "sqlite3_step";
    columnInt := ExportedFunction "sqlite3_column_int64";
    columnText := ExportedFunction "sqlite3_column_text";
    dbHandle := 0
  |} ;;
  h <- newSqlModule_open ;;
  s <- this ;;
  setSelf {|
    memory := memory s; open := open s; exec := exec s;
    getResultPtr := getResultPtr s; getResultSize := getResultSize s;
    prepare := prepare s; step := step s; columnInt := columnInt s;
    columnText := columnText s; alloc := alloc s;
    dbHandle := uint64 h
  |}.

(** [func main()], from [newSqlModule] to the query; the rows are
    returned where the source prints them. *)
Definition main (fuel : nat) : M G (list user) :=
  newSqlModule ;;
  execSql (str "CREATE TABLE users (id int, name varchar(10))") ;;
  execSql (str "INSERT INTO users(id, name) VALUES(0, 'go'), (1, 'zig'), (2, 'whatever')") ;;
  execSelectUsers fuel (str "SELECT id, name FROM users").

End Program.

(* ================================================================== *)
(** * A scripted guest

    A guest that answers its calls from a list, one entry per call, in
    order; an entry may also replace the memory (what a real export does
    when it fills the result slot or allocates).  With the script used up
    every call traps.  It stands for the Wasm binary in the concrete runs
    below. *)

Record Reply : Type := mkReply {
  results : option (list Z);
  newBuffer : option (list byte)
}.

Definition scripted (exports : string -> bool) : Runtime (list Reply) := {|
  InstantiateModule := fun m => Some m;
  exported := exports;
  invoke := fun _ _ m =>
    match guest m with
    | [] => (None, m)
    | r :: script =>
        (results r,
         mkMachine (match newBuffer r with
                    | Some b => b
                    | None => buffer m
                    end) script)
    end
|}.

Definition allExports : string -> bool := fun _ => true.

(** The exports but one. *)
Definition without (missing : string) : string -> bool :=
  fun f => negb (String.eqb f missing).

(** [n] as one byte, and as four bytes in little-endian order. *)
Definition byteOf (n : Z) : byte :=
  match Byte.of_N (Z.to_N (n mod 256)) with
  | Some b => b
  | None => Byte.x00
  end.

Definition le32 (n : Z) : list byte :=
  [byteOf n; byteOf (Z.shiftr n 8); byteOf (Z.shiftr n 16);
   byteOf (Z.shiftr n 24)].

Definition zeros (n : nat) : list byte := repeat Byte.x00 n.

(** The zero value of the struct, and a world before [newSqlModule]. *)
Definition nilModule : sqliteModule :=
  mkSqliteModule InstanceMemory None None None None None None None None None 0.

Definition boot (buf : list byte) (script : list Reply) : World (list Reply) :=
  mkWorld nilModule (mkMachine buf script) [].

Definition reply (r : list Z) : Reply := mkReply (Some r) None.
Definition replyMem (r : list Z) (buf : list byte) : Reply :=
  mkReply (Some r) (Some buf).
Definition trap : Reply := mkReply None None.

(** The struct as [newSqlModule] binds it when the module exports all nine
    functions, with database handle [h]; and a world that has it. *)
Definition client (h : Z) : sqliteModule := {|
  memory := InstanceMemory;
  open := Some "sqlite3_open_v2"%string;
  exec := Some "sqlite3_exec"%string;
  getResultPtr := Some "get_result_ptr"%string;
  getResultSize := Some "get_result_size"%string;
  prepare := Some "sqlite3_prepare_v2"%string;
  step := Some "sqlite3_step"%string;
  columnInt := Some "sqlite3_column_int64"%string;
  columnText := Some "sqlite3_column_text"%string;
  alloc := Some "allocate"%string;
  dbHandle := h
|}.

Definition opened (h : Z) (buf : list byte) (script : list Reply)
  : World (list Reply) :=
  mkWorld (client h) (mkMachine buf script) [].

(** The three [uint32] fields the guest leaves at its result address. *)
Definition envelope (statusCode auxPointer auxSize : Z) : list byte :=
  le32 statusCode ++ le32 auxPointer ++ le32 auxSize.

(* ================================================================== *)
(** * The rows of a statement

    [Rows stmt rc w rows w']: entered in world [w] with the code [rc] of
    the last step, the guest delivers [rows] and the loop is left in
    world [w'].  One row per step that answered [SQLITE_ROW]; the first
    other code ends it. *)

Inductive Rows {G} {RT : Runtime G} (stmt : Z)
  : Z -> World G -> list user -> World G -> Prop :=
| Rows_done rc w :
    rc <> SQLITE_ROW -> Rows stmt rc w [] w
| Rows_row w i w1 n w2 rc' w3 rows w' :
    readInt stmt 0 w = Ok i w1 ->
    readText stmt 1 w1 = Ok n w2 ->
    execStep stmt w2 = Ok rc' w3 ->
    Rows stmt rc' w3 rows w' ->
    Rows stmt SQLITE_ROW w (mkUser i n :: rows) w'.


(** The function references as [newSqlModule] binds them: each field is
    the export of its name, or nil when the module has none. *)
Definition bound {G} {RT : Runtime G} (s : sqliteModule) : Prop :=
  open s = ExportedFunction "sqlite3_open_v2" /\
  exec s = ExportedFunction "sqlite3_exec" /\
  getResultPtr s = ExportedFunction "get_result_ptr" /\
  getResultSize s = ExportedFunction "get_result_size" /\
  alloc s = ExportedFunction "allocate" /\
  prepare s = ExportedFunction "sqlite3_prepare_v2" /\
  step s = ExportedFunction "sqlite3_step" /\
  columnInt s = ExportedFunction "sqlite3_column_int64" /\
  columnText s = ExportedFunction "sqlite3_column_text".

(** The world in which a computation ended. *)
Definition after {G A} (o : Outcome G A) : World G :=
  match o with
  | Ok _ w => w
  | Panic _ w => w
  | OutOfFuel w => w
  end.


(** Reading a handle through the auxiliary pointer: the envelope at
    [base] holds a pointer in its field at offset 4, and the handle is the
    [uint32] stored 4 bytes after the address that pointer names. *)
Definition handle_behind_auxPointer (buf : list byte) (base handle : Z)
  : Prop :=
  exists auxPointer,
    Memory.ReadUint32Le buf (uint32 (uint32 base + 4)) = Some auxPointer /\
    Memory.ReadUint32Le buf (uint32 (auxPointer + 4)) = Some handle.


(** Reading the error message through the auxiliary pointer: the
    envelope at [base] holds a pointer in its field at offset 4; the
    message's address is the [uint32] 4 bytes after what that pointer
    names and its length the [uint32] 8 bytes after; the message is the
    bytes of that range, and is empty, with nothing read, for a length
    of zero. *)
Definition message_behind_auxPointer (buf : list byte) (base : Z)
    (msg : gostring) : Prop :=
  exists auxPointer ptr size,
    Memory.ReadUint32Le buf (uint32 (uint32 base + 4)) = Some auxPointer /\
    Memory.ReadUint32Le buf (uint32 (auxPointer + 4)) = Some ptr /\
    Memory.ReadUint32Le buf (uint32 (auxPointer + 8)) = Some size /\
    ((size = 0 /\ msg = []) \/
     (size <> 0 /\ Memory.Read buf ptr size = Some msg)).


(** The failures of calling an export: the reference is nil because the
    module has no export of that name, or the call returned an error. *)
Definition isCallError (e : Failure) : bool :=
  match e with
  | NilDereference | CallError _ => true
  | _ => false
  end.


(* ================================================================== *)
(** * The footprint of the client

    [Emits s ev]: [ev] is an interaction that the methods of a client
    whose struct is [s] make and survive: a call of one of the bound
    exports with the arguments the source passes (the database handle
    first for exec and prepare), or a memory access that was in bounds.
    [Fatal ev]: a memory access that was out of bounds. *)

Inductive Emits (s : sqliteModule) : Event -> Prop :=
| emit_alloc f n r :
    alloc s = Some f -> Emits s (EvCall f [n; 0] r)
| emit_open f a b c d r :
    open s = Some f -> Emits s (EvCall f [a; b; 6; c; d] r)
| emit_exec f p n r :
    exec s = Some f -> Emits s (EvCall f [dbHandle s; p; n; 0; 0] r)
| emit_prepare f p n r :
    prepare s = Some f -> Emits s (EvCall f [dbHandle s; p; n] r)
| emit_getResultPtr f r :
    getResultPtr s = Some f -> Emits s (EvCall f [] r)
| emit_getResultSize f r :
    getResultSize s = Some f -> Emits s (EvCall f [] r)
| emit_step f stmt r :
    step s = Some f -> Emits s (EvCall f [stmt] r)
| emit_columnInt f stmt col r :
    columnInt s = Some f -> Emits s (EvCall f [stmt; col] r)
| emit_columnText f stmt col r :
    columnText s = Some f -> Emits s (EvCall f [stmt; col] r)
| emit_Read o n : Emits s (EvRead o n true)
| emit_ReadUint32Le o : Emits s (EvReadUint32Le o true)
| emit_Write o v : Emits s (EvWrite o v true).

Inductive Fatal : Event -> Prop :=
| fatal_Read o n : Fatal (EvRead o n false)
| fatal_ReadUint32Le o : Fatal (EvReadUint32Le o false)
| fatal_Write o v : Fatal (EvWrite o v false).

(** The panics that follow a refused memory access. *)
Definition isMemoryError (e : Failure) : bool :=
  match e with
  | MemoryAccessError _ | StatementError _ => true
  | _ => false
  end.

(** A memory access that was answered [ok]; calls are no accesses. *)
Definition accessOk (ev : Event) : Prop :=
  match ev with
  | EvCall _ _ _ => True
  | EvRead _ _ ok => ok = true
  | EvReadUint32Le _ ok => ok = true
  | EvWrite _ _ ok => ok = true
  end.

(** From [w] to [w'] without a failure: the struct is the same and the
    events added are in the footprint. *)
Definition steady {G} (w w' : World G) : Prop :=
  self w' = self w /\
  exists evs, trace w' = trace w ++ evs /\ Forall (Emits (self w)) evs.

(** From [w] to a panic [e] in [w']: the same, but for a last event that
    may be a refused memory access, the cause of the panic. *)
Definition halted {G} (e : Failure) (w w' : World G) : Prop :=
  self w' = self w /\
  exists evs tail,
    trace w' = trace w ++ evs ++ tail /\
    Forall (Emits (self w)) evs /\
    (tail = [] \/
     exists ev, tail = [ev] /\ Fatal ev /\ isMemoryError e = true).

Definition contained {G A} (m : M G A) (w : World G) : Prop :=
  match m w with
  | Ok _ w' => steady w w'
  | Panic e w' => halted e w w'
  | OutOfFuel w' => steady w w'
  end.

(** The operations of a client once it is built. *)
Inductive Operation : Type :=
| OpExecSql (query : gostring)
| OpExecSelectUsers (fuel : nat) (query : gostring)
| OpExecStep (stmt : Z)
| OpReadInt (stmt columnIndex : Z)
| OpReadText (stmt columnIndex : Z)
| OpAllocateString (s : gostring)
| OpEnsureStatusCodeSuccess (resultPpr : Z) (errMsg : gostring).

Definition perform {G} {RT : Runtime G} (op : Operation) : M G unit :=
  match op with
  | OpExecSql query => execSql query
  | OpExecSelectUsers fuel query => execSelectUsers fuel query ;; ret tt
  | OpExecStep stmt => execStep stmt ;; ret tt
  | OpReadInt stmt columnIndex => readInt stmt columnIndex ;; ret tt
  | OpReadText stmt columnIndex => readText stmt columnIndex ;; ret tt
  | OpAllocateString s => allocateString s ;; ret tt
  | OpEnsureStatusCodeSuccess resultPpr errMsg =>
      ensureStatusCodeSuccess resultPpr errMsg
  end.

(** Operations one after the other; the first panic ends the run. *)
Fixpoint performAll {G} {RT : Runtime G} (ops : list Operation) : M G unit :=
  match ops with
  | [] => ret tt
  | op :: ops' => perform op ;; performAll ops'
  end.


(** The memory accesses of a run from [w] that ended as [o]: all but the
    last event were in bounds, and so was the last unless the run ended
    in the panic of a refused access. *)
Definition accessesChecked {G A} (w : World G) (o : Outcome G A) : Prop :=
  exists evs,
    trace (after o) = trace w ++ evs /\
    Forall accessOk (removelast evs) /\
    (Forall accessOk evs \/
     exists e w', o = Panic e w' /\ isMemoryError e = true).


(** The interactions that read the row [u] of statement [stmt] with a
    struct [s], in their order: the integer column 0, whose result is the
    row's id; the text column 1, the two accessors and the read of the
    text, which is the row's name and has the length the size accessor
    returned; and the step to the next row. *)
Definition rowEvents (s : sqliteModule) (stmt : Z) (u : user)
    (evs : list Event) : Prop :=
  exists fi ft fp fs fst r0 ri rt p restp n restn rs,
    columnInt s = Some fi /\
    columnText s = Some ft /\
    getResultPtr s = Some fp /\
    getResultSize s = Some fs /\
    step s = Some fst /\
    id u = int r0 /\
    len (name u) = uint32 n /\
    evs = [EvCall fi [uint64 stmt; uint64 0] (Some (r0 :: ri));
           EvCall ft [uint64 stmt; uint64 1] (Some rt);
           EvCall fp [] (Some (p :: restp));
           EvCall fs [] (Some (n :: restn));
           EvRead (uint32 p) (uint32 n) true;
           EvCall fst [uint64 stmt] (Some rs)].

(** The struct as [newSqlModule] first builds it: the nine exports looked
    up by name, the handle not yet set. *)
Definition unopened {G} {RT : Runtime G} : sqliteModule := {|
  memory := InstanceMemory;
  open := ExportedFunction "sqlite3_open_v2";
  exec := ExportedFunction "sqlite3_exec";
  getResultPtr := ExportedFunction "get_result_ptr";
  getResultSize := ExportedFunction "get_result_size";
  alloc := ExportedFunction "allocate";
  prepare := ExportedFunction "sqlite3_prepare_v2";
  step := ExportedFunction "sqlite3_step";
  columnInt := ExportedFunction "sqlite3_column_int64";
  columnText := ExportedFunction "sqlite3_column_text";
  dbHandle := 0
|}.


(** A module that exports the listed names and nothing else. *)
Definition onlyExports (names : list string) : string -> bool :=
  fun f => existsb (String.eqb f) names.


(* ================================================================== *)
(** * Facts about the integer conversions *)

Lemma uint64_range z : 0 <= uint64 z < 2 ^ 64.
Proof. unfold uint64. apply Z.mod_pos_bound. lia. Qed.

Lemma uint32_range z : 0 <= uint32 z < 2 ^ 32.
Proof. unfold uint32. apply Z.mod_pos_bound. lia. Qed.

Lemma uint64_small z : 0 <= z < 2 ^ 64 -> uint64 z = z.
Proof. intros H. unfold uint64. now apply Z.mod_small. Qed.

Lemma uint32_small z : 0 <= z < 2 ^ 32 -> uint32 z = z.
Proof. intros H. unfold uint32. now apply Z.mod_small. Qed.

Lemma uint32_uint64 z : uint32 (uint64 z) = uint32 z.
Proof.
  unfold uint32, uint64. apply Z.mod_mod_divide.
  exists (2 ^ 32). reflexivity.
Qed.

Lemma uint32_add z k : uint32 (uint64 (z + k)) = uint32 (uint32 z + k).
Proof.
  rewrite uint32_uint64. unfold uint32.
  rewrite Z.add_mod_idemp_l by lia. reflexivity.
Qed.

(** [int] keeps the 64 bits, and is the identity below [2^63]. *)
Lemma uint64_int z : uint64 (int z) = uint64 z.
Proof.
  unfold uint64, int.
  rewrite <- Zminus_mod_idemp_l, Z.mod_mod by lia.
  rewrite Zminus_mod_idemp_l. f_equal. lia.
Qed.

Lemma int_small z : 0 <= z < 2 ^ 63 -> int z = z.
Proof. intros H. unfold int. rewrite Z.mod_small; lia. Qed.

(** On a [uint64], [int(x) == SQLITE_ROW] tests [x == 100]. *)
Lemma int_is_row r : 0 <= r < 2 ^ 64 -> (int r = SQLITE_ROW <-> r = 100).
Proof.
  intros H. unfold SQLITE_ROW. split; intros E.
  - unfold int in E.
    destruct (Z_lt_le_dec r (2 ^ 63)) as [L | L].
    + rewrite Z.mod_small in E; lia.
    + replace (r + 2 ^ 63) with (r - 2 ^ 63 + 1 * 2 ^ 64) in E by lia.
      rewrite Z.mod_add, Z.mod_small in E; lia.
  - subst r. reflexivity.
Qed.

Lemma len_nonneg {A} (l : list A) : 0 <= len l.
Proof. unfold len. lia. Qed.

(* ================================================================== *)
(** * Facts about the memory interface *)

Module MemoryFacts.
Import Memory.

Lemma hasSize_iff buf o n : hasSize buf o n = true <-> o + n <= Size buf.
Proof. unfold hasSize. apply Z.leb_le. Qed.

Lemma Read_Some buf o n bs :
  Read buf o n = Some bs -> o + n <= Size buf /\ bs = slice buf o n.
Proof.
  unfold Read. destruct (hasSize buf o n) eqn:E; [|discriminate].
  intros [= <-]. split; [now apply hasSize_iff | reflexivity].
Qed.

Lemma Read_None buf o n : Size buf < o + n -> Read buf o n = None.
Proof.
  intros H. unfold Read, hasSize.
  destruct (Z.leb_spec (o + n) (Size buf)); [lia | reflexivity].
Qed.

(** A read that succeeds returns all the [n] bytes of the range. *)
Lemma Read_length buf o n bs :
  0 <= o -> 0 <= n -> Read buf o n = Some bs -> len bs = n.
Proof.
  intros Ho Hn H. apply Read_Some in H as [B ->].
  unfold slice, len, Size, len in *.
  rewrite length_firstn, length_skipn. lia.
Qed.

Lemma Write_None buf o v : Size buf < o + len v -> Write buf o v = None.
Proof.
  intros H. unfold Write, hasSize.
  destruct (Z.leb_spec (o + len v) (Size buf)); [lia | reflexivity].
Qed.

Lemma Write_Some buf o v buf' :
  Write buf o v = Some buf' ->
  o + len v <= Size buf /\
  buf' = firstn (Z.to_nat o) buf ++ v ++ skipn (Z.to_nat (o + len v)) buf.
Proof.
  unfold Write. destruct (hasSize buf o (len v)) eqn:E; [|discriminate].
  intros [= <-]. split; [now apply hasSize_iff | reflexivity].
Qed.

Lemma Write_Size buf o v buf' :
  0 <= o -> Write buf o v = Some buf' -> Size buf' = Size buf.
Proof.
  intros Ho H. apply Write_Some in H as [B ->].
  unfold Size, len in *.
  rewrite !length_app, length_firstn, length_skipn. lia.
Qed.

(** What was written is what is read back. *)
Lemma Read_Write buf o v buf' :
  0 <= o -> Write buf o v = Some buf' -> Read buf' o (len v) = Some v.
Proof.
  intros Ho H. pose proof (Write_Size _ _ _ _ Ho H) as S.
  apply Write_Some in H as [B ->].
  unfold Read. replace (hasSize _ o (len v)) with true
    by (symmetry; apply hasSize_iff; lia).
  f_equal. unfold slice.
  assert (L : List.length (firstn (Z.to_nat o) buf) = Z.to_nat o).
  { rewrite length_firstn. unfold Size, len in B. lia. }
  rewrite skipn_app, L, Nat.sub_diag, skipn_all2 by lia.
  simpl. rewrite firstn_app.
  replace (Z.to_nat (len v)) with (List.length v) by (unfold len; lia).
  rewrite Nat.sub_diag, firstn_all. simpl. apply app_nil_r.
Qed.

Lemma byteAt_range b i : 0 <= byteAt b i < 256.
Proof.
  unfold byteAt. pose proof (Byte.to_N_bounded (nth i b Byte.x00)). lia.
Qed.

Lemma lor_bound n a b :
  0 <= n -> 0 <= a < 2 ^ n -> 0 <= b < 2 ^ n -> 0 <= Z.lor a b < 2 ^ n.
Proof.
  intros Hn Ha Hb. split; [apply Z.lor_nonneg; lia|].
  destruct (Z.eq_dec a 0) as [-> | Na]; [rewrite Z.lor_0_l; lia|].
  destruct (Z.eq_dec b 0) as [-> | Nb]; [rewrite Z.lor_0_r; lia|].
  assert (Hp : 0 < Z.lor a b).
  { assert (0 <= Z.lor a b) by (apply Z.lor_nonneg; lia).
    assert (Z.lor a b <> 0) by (rewrite Z.lor_eq_0_iff; lia). lia. }
  apply Z.log2_lt_pow2; [exact Hp|].
  rewrite Z.log2_lor by lia.
  apply Z.max_lub_lt; apply Z.log2_lt_pow2; lia.
Qed.

Lemma shiftl_bound a k n :
  0 <= k -> 0 <= a < 2 ^ n -> 0 <= n -> 0 <= Z.shiftl a k < 2 ^ (n + k).
Proof.
  intros Hk Ha Hn. rewrite Z.shiftl_mul_pow2 by lia.
  rewrite Z.pow_add_r by lia.
  assert (0 < 2 ^ k) by (apply Z.pow_pos_nonneg; lia). nia.
Qed.

(** A decoded [uint32] is a [uint32]. *)
Lemma Uint32_range b : 0 <= Uint32 b < 2 ^ 32.
Proof.
  unfold Uint32.
  pose proof (byteAt_range b 0) as H0.
  pose proof (shiftl_bound (byteAt b 1) 8 8 ltac:(lia) (byteAt_range b 1) ltac:(lia)) as H1.
  pose proof (shiftl_bound (byteAt b 2) 16 8 ltac:(lia) (byteAt_range b 2) ltac:(lia)) as H2.
  pose proof (shiftl_bound (byteAt b 3) 24 8 ltac:(lia) (byteAt_range b 3) ltac:(lia)) as H3.
  simpl Z.add in *.
  apply (lor_bound 32); [lia| |lia].
  assert (0 <= Z.lor (Z.lor (byteAt b 0) (Z.shiftl (byteAt b 1) 8))
                   (Z.shiftl (byteAt b 2) 16) < 2 ^ 24).
  { apply (lor_bound 24); [lia| |lia].
    assert (0 <= Z.lor (byteAt b 0) (Z.shiftl (byteAt b 1) 8) < 2 ^ 16)
      by (apply (lor_bound 16); lia).
    lia. }
  lia.
Qed.

Lemma ReadUint32Le_range buf o v :
  ReadUint32Le buf o = Some v -> 0 <= v < 2 ^ 32.
Proof.
  unfold ReadUint32Le. destruct (hasSize buf o 4); [|discriminate].
  intros [= <-]. apply Uint32_range.
Qed.

End MemoryFacts.

(* ================================================================== *)
(** * Running a computation step by step *)

Section Steps.

Context {G : Type} {RT : Runtime G}.
Implicit Types w : World G.

Lemma bind_Ok {A B} (m : M G A) (k : A -> M G B) w a w1 :
  m w = Ok a w1 -> bind m k w = k a w1.
Proof. intros H. unfold bind. now rewrite H. Qed.

Lemma bind_Panic {A B} (m : M G A) (k : A -> M G B) w e w1 :
  m w = Panic e w1 -> bind m k w = Panic e w1.
Proof. intros H. unfold bind. now rewrite H. Qed.

Lemma bind_Ok_inv {A B} (m : M G A) (k : A -> M G B) w b w' :
  bind m k w = Ok b w' -> exists a w1, m w = Ok a w1 /\ k a w1 = Ok b w'.
Proof.
  unfold bind. destruct (m w) as [a w1| |]; try discriminate. eauto.
Qed.

Lemma orPanic_Ok_inv {A} (m : M G (option A)) e w a w' :
  orPanic m e w = Ok a w' -> m w = Ok (Some a) w'.
Proof.
  unfold orPanic, bind. destruct (m w) as [[x|] w1| |]; try discriminate.
  unfold ret. now intros [= -> ->].
Qed.

Lemma orPanic_None {A} (m : M G (option A)) e w w' :
  m w = Ok None w' -> orPanic m e w = Panic e w'.
Proof. intros H. unfold orPanic, bind. now rewrite H. Qed.

Lemma first_Ok_inv res w r w' :
  first res w = Ok r w' -> w' = w /\ exists rest, res = r :: rest.
Proof.
  destruct res as [|r0 rest]; simpl; [discriminate|].
  unfold ret. intros [= -> ->]. eauto.
Qed.

(** A call that returns: the export was bound, it ran on the instance,
    and the call is the one event added. *)
Lemma Call_Ok_inv f params w r w' :
  Call f params w = Ok r w' ->
  exists fname r0 m',
    f = Some fname /\
    invoke fname params (machine w) = (r0, m') /\
    r = option_map (map uint64) r0 /\
    w' = mkWorld (self w) m' (trace w ++ [EvCall fname params r]).
Proof.
  unfold Call. destruct f as [fname|]; [|discriminate].
  destruct (invoke fname params (machine w)) as [r0 m'] eqn:E.
  intros [= <- <-]. exists fname, r0, m'. auto.
Qed.

Lemma Call_run fname params w r0 m' :
  invoke fname params (machine w) = (r0, m') ->
  Call (Some fname) params w =
  Ok (option_map (map uint64) r0)
     (mkWorld (self w) m'
        (trace w ++ [EvCall fname params (option_map (map uint64) r0)])).
Proof. intros H. unfold Call. now rewrite H. Qed.

Lemma ensureStatusCodeSuccess_run resultPpr errMsg w :
  ensureStatusCodeSuccess resultPpr errMsg w =
  match Memory.ReadUint32Le (buffer (machine w)) resultPpr with
  | None => Panic (MemoryAccessError "cannot read return code")
              (record (EvReadUint32Le resultPpr false) w)
  | Some retCode =>
      if retCode =? 0
      then Ok tt (record (EvReadUint32Le resultPpr true) w)
      else Panic (EngineError retCode errMsg)
             (record (EvReadUint32Le resultPpr true) w)
  end.
Proof.
  unfold ensureStatusCodeSuccess, orPanic, bind, ReadUint32Le.
  destruct (Memory.ReadUint32Le (buffer (machine w)) resultPpr) as [c|];
    simpl; [|reflexivity].
  destruct (c =? 0); reflexivity.
Qed.

Lemma ReadUint32Le_run offset e w v :
  Memory.ReadUint32Le (buffer (machine w)) offset = Some v ->
  orPanic (ReadUint32Le offset) e w
  = Ok v (record (EvReadUint32Le offset true) w).
Proof.
  intros H. unfold orPanic, bind, ReadUint32Le. now rewrite H.
Qed.

Lemma Read_run offset byteCount e w bs :
  Memory.Read (buffer (machine w)) offset byteCount = Some bs ->
  orPanic (Read offset byteCount) e w
  = Ok bs (record (EvRead offset byteCount true) w).
Proof.
  intros H. unfold orPanic, bind, Read. now rewrite H.
Qed.

Lemma Read_fail offset byteCount e w :
  Memory.Read (buffer (machine w)) offset byteCount = None ->
  orPanic (Read offset byteCount) e w
  = Panic e (record (EvRead offset byteCount false) w).
Proof.
  intros H. unfold orPanic, bind, Read. now rewrite H.
Qed.

(** A successful [allocateString]: the allocator returned an address,
    the string was written there, and nothing else happened. *)
Lemma allocateString_Ok_inv s w ptr size w' :
  allocateString s w = Ok (ptr, size) w' ->
  exists fname r0 rest m' buf',
    alloc (self w) = Some fname /\
    invoke fname [uint64 (len s); 0] (machine w) = (Some r0, m') /\
    map uint64 r0 = ptr :: rest /\
    Memory.Write (buffer m') (uint32 ptr) s = Some buf' /\
    size = uint64 (len s) /\
    w' = mkWorld (self w) (mkMachine buf' (guest m'))
           (trace w ++ [EvCall fname [uint64 (len s); 0] (Some (ptr :: rest));
                        EvWrite (uint32 ptr) s true]).
Proof.
  unfold allocateString. intros H.
  apply bind_Ok_inv in H as (m & w1 & [= <- <-] & H).
  apply bind_Ok_inv in H as (res & w2 & Hc & H).
  apply orPanic_Ok_inv, Call_Ok_inv in Hc
    as (fname & r0 & m' & Hf & Hi & Hr & ->).
  destruct r0 as [r0|]; [|discriminate]. injection Hr as ->.
  apply bind_Ok_inv in H as (p & w3 & Hp & H).
  apply first_Ok_inv in Hp as [-> [rest Hrest]].
  apply bind_Ok_inv in H as (ok & w4 & Hw & H).
  unfold Write in Hw. simpl in Hw.
  destruct (Memory.Write (buffer m') (uint32 p) s) as [buf'|] eqn:W;
    injection Hw as <- <-; simpl in H; [|discriminate].
  injection H as <- <- <-.
  exists fname, r0, rest, m', buf'.
  rewrite <- app_assoc. simpl. rewrite Hrest. auto 10.
Qed.

End Steps.

(* ================================================================== *)
(** * Writing a string into the guest and reading it back *)

(** C5.  A successful [allocateString s] returns the pair (pointer, length)
    with length [len s], and reading that many bytes at the pointer right
    afterwards gives back exactly [s].  The read takes [uint32] arguments,
    so [s] is shorter than [2^32] bytes. *)
Theorem allocateString_roundtrip {G} {RT : Runtime G}
    (s : gostring) (w : World G) (ptr size : Z) (w' : World G) :
  len s < 2 ^ 32 ->
  allocateString s w = Ok (ptr, size) w' ->
  size = len s /\
  Read (uint32 ptr) (uint32 size) w' =
  Ok (Some s) (record (EvRead (uint32 ptr) (uint32 size) true) w').
Proof.
  intros Hlen H.
  apply allocateString_Ok_inv in H
    as (fname & r0 & rest & m' & buf' & _ & _ & _ & Hw & -> & ->).
  pose proof (len_nonneg s) as Hn.
  assert (P : 2 ^ 32 < 2 ^ 64) by reflexivity.
  rewrite uint64_small by lia. split; [reflexivity|].
  rewrite (uint32_small (len s)) by lia.
  unfold Read. simpl.
  rewrite (MemoryFacts.Read_Write _ _ _ _ (proj1 (uint32_range ptr)) Hw).
  reflexivity.
Qed.

Lemma allocateString_roundtrip_witness :
  let w := opened 7 (zeros 16) [reply [4]] in
  let w' : World (list Reply) :=
    mkWorld (client 7)
              (mkMachine (zeros 4 ++ str "go" ++ zeros 10) [])
              [EvCall "allocate" [2; 0] (Some [4]); EvWrite 4 (str "go") true] in
  2 = len (str "go") /\
  Read (uint32 4) (uint32 2) w' =
  Ok (Some (str "go")) (record (EvRead (uint32 4) (uint32 2) true) w').
Proof.
  intros w w'.
  apply (allocateString_roundtrip (RT := scripted allExports)
           (str "go") w 4 2 w').
  - vm_compute. reflexivity.
  - vm_compute. reflexivity.
Defined.

(* ================================================================== *)
(** * The status check *)

(** C4.  With the status code readable at the envelope's base address,
    [ensureStatusCodeSuccess] fails exactly when that code is not zero;
    the failure carries the code and the message it was given (the empty
    string when the caller had none); and with a zero code it returns,
    having only read the code: the struct, the memory and the guest are
    as before. *)
Theorem ensureStatusCodeSuccess_spec {G}
    (resultPpr : Z) (errMsg : gostring) (w : World G) (retCode : Z) :
  Memory.ReadUint32Le (buffer (machine w)) resultPpr = Some retCode ->
  let w' := record (EvReadUint32Le resultPpr true) w in
  ((exists e w1, ensureStatusCodeSuccess resultPpr errMsg w = Panic e w1)
   <-> retCode <> 0) /\
  (retCode <> 0 ->
   ensureStatusCodeSuccess resultPpr errMsg w =
   Panic (EngineError retCode errMsg) w') /\
  (retCode = 0 -> ensureStatusCodeSuccess resultPpr errMsg w = Ok tt w') /\
  self w' = self w /\ machine w' = machine w.
Proof.
  intros H w'. rewrite ensureStatusCodeSuccess_run, H.
  destruct (Z.eqb_spec retCode 0) as [E | E]; repeat split; auto;
    try congruence; try tauto.
  - intros (e & w1 & X). discriminate.
  - intros _. eauto.
Qed.

Lemma ensureStatusCodeSuccess_spec_witness :
  let w := opened 7 (le32 1 ++ zeros 4) [] in
  let w' := record (EvReadUint32Le 0 true) w in
  ((exists e w1,
      ensureStatusCodeSuccess 0 (str "no such table") w
      = Panic e w1) <-> 1 <> 0) /\
  (1 <> 0 ->
   ensureStatusCodeSuccess 0 (str "no such table") w =
   Panic (EngineError 1 (str "no such table")) w') /\
  (1 = 0 ->
   ensureStatusCodeSuccess 0 (str "no such table") w
   = Ok tt w') /\
  self w' = self w /\ machine w' = machine w.
Proof.
  intros w w'.
  apply (ensureStatusCodeSuccess_spec 0 (str "no such table") w 1).
  vm_compute. reflexivity.
Defined.

(* ================================================================== *)
(** * Reading an integer column *)

(** C7.  [readInt] returns the raw value of the integer-column export:
    the 64-bit word the export returned, read as a Go [int] (the same 64
    bits; the same number below [2^63]).  The call to that export is the
    only interaction, whether it returns or traps: no call to
    [get_result_ptr] or [get_result_size] and no read of the guest
    memory. *)
Theorem readInt_raw {G} {RT : Runtime G}
    (stmt columnIndex : Z) (w : World G) :
  columnInt (self w) = Some "sqlite3_column_int64"%string ->
  (forall r rest m',
      invoke "sqlite3_column_int64" [uint64 stmt; uint64 columnIndex]
        (machine w) = (Some (r :: rest), m') ->
      let raw := uint64 r in
      readInt stmt columnIndex w =
      Ok (int raw)
         (mkWorld (self w) m'
            (trace w ++ [EvCall "sqlite3_column_int64"
                           [uint64 stmt; uint64 columnIndex]
                           (Some (raw :: map uint64 rest))])) /\
      uint64 (int raw) = raw /\
      (raw < 2 ^ 63 -> int raw = raw)) /\
  (exists res,
      trace (after (readInt stmt columnIndex w)) =
      trace w ++ [EvCall "sqlite3_column_int64"
                    [uint64 stmt; uint64 columnIndex] res]).
Proof.
  intros Hf. split.
  - intros r rest m' Hi raw. split; [|split].
    + unfold readInt, orPanic, bind, this, ret, first. cbv beta iota zeta.
      rewrite Hf, (Call_run _ _ _ _ _ Hi). reflexivity.
    + rewrite uint64_int. apply uint64_small, uint64_range.
    + intros H. apply int_small. pose proof (uint64_range r) as R.
      fold raw in R. lia.
  - unfold readInt, orPanic, bind, this, ret, panic, first, Call.
    cbv beta iota zeta. rewrite Hf.
    destruct (invoke "sqlite3_column_int64" [uint64 stmt; uint64 columnIndex]
                (machine w)) as [[[|r rest]|] m'];
      cbn [option_map map after trace]; eexists; reflexivity.
Qed.

Lemma readInt_raw_witness :
  let w := opened 7 (zeros 8) [reply [2 ^ 64 - 1]] in
  let raw := uint64 (2 ^ 64 - 1) in
  (readInt (RT := scripted allExports) 3 0 w =
   Ok (int raw)
      (mkWorld (self w) (mkMachine (zeros 8) [])
         (trace w ++ [EvCall "sqlite3_column_int64" [uint64 3; uint64 0]
                        (Some (raw :: map uint64 []))])) /\
   uint64 (int raw) = raw /\
   (raw < 2 ^ 63 -> int raw = raw)) /\
  int raw = -1.
Proof.
  intros w. split; [|reflexivity].
  apply (readInt_raw (RT := scripted allExports) 3 0 w).
  - reflexivity.
  - reflexivity.
Defined.

(* ================================================================== *)
(** * Preparing a statement *)

Ltac expose :=
  unfold orPanic, bind, this, ret, panic, first; cbv beta iota zeta.

Ltac run_with H := expose; rewrite H; expose.

(** C9.  A statement handle equal to 0 is refused although the status of
    the prepare call is zero: [execSelectUsers] panics right after reading
    the handle.  The world it stops in has, after the call to
    [get_result_ptr], the two reads only: the step loop is not entered. *)
Theorem execSelectUsers_null_statement {G} {RT : Runtime G}
    (fuel : nat) (query : gostring) (w w1 w2 w3 : World G)
    (queryPtr querySize base : Z) (r rest : list Z) :
  allocateString query w = Ok (queryPtr, querySize) w1 ->
  Call (prepare (self w1)) [dbHandle (self w1); queryPtr; querySize] w1
  = Ok (Some r) w2 ->
  Call (getResultPtr (self w2)) [] w2 = Ok (Some (base :: rest)) w3 ->
  Memory.ReadUint32Le (buffer (machine w3)) (uint32 base) = Some 0 ->
  Memory.ReadUint32Le (buffer (machine w3)) (uint32 (uint64 (base + 4)))
  = Some 0 ->
  execSelectUsers fuel query w =
  Panic (StatementError (uint64 (base + 4)))
    (mkWorld (self w3) (machine w3)
       (trace w3 ++ [EvReadUint32Le (uint32 base) true;
                     EvReadUint32Le (uint32 (uint64 (base + 4))) true])).
Proof.
  intros Ha Hp Hg Hs Hh.
  unfold execSelectUsers, execSelectUsers_prepare.
  run_with Ha. run_with Hp. run_with Hg.
  rewrite ensureStatusCodeSuccess_run, Hs.
  change (0 =? 0) with true. cbv beta iota zeta.
  unfold ReadUint32Le, record. cbn [buffer machine self trace].
  rewrite Hh. change (0 =? 0) with true. cbv beta iota.
  rewrite <- app_assoc. reflexivity.
Qed.

Lemma execSelectUsers_null_statement_witness :
  let buf := zeros 32 ++ envelope 0 0 0 ++ zeros 4 in
  let w := opened 7 (zeros 48) [reply [0]; replyMem [] buf; reply [32]] in
  exists w4,
    execSelectUsers (RT := scripted allExports) 3 (str "SELECT 1") w =
    Panic (StatementError (uint64 (32 + 4))) w4 /\
    trace w4 =
    [EvCall "allocate" [8; 0] (Some [0]);
     EvWrite 0 (str "SELECT 1") true;
     EvCall "sqlite3_prepare_v2" [7; 0; 8] (Some []);
     EvCall "get_result_ptr" [] (Some [32]);
     EvReadUint32Le 32 true; EvReadUint32Le 36 true].
Proof.
  intros buf w. eexists. split.
  - eapply (execSelectUsers_null_statement (RT := scripted allExports)
              3 (str "SELECT 1") w _ _ _ 0 8 32 [] []).
    + vm_compute. reflexivity.
    + vm_compute. reflexivity.
    + vm_compute. reflexivity.
    + vm_compute. reflexivity.
    + vm_compute. reflexivity.
  - vm_compute. reflexivity.
Defined.

(* ================================================================== *)
(** * The step loop *)

Section StepLoop.

Context {G : Type} {RT : Runtime G}.
Implicit Types w : World G.

Lemma loop_exit fuel stmt rc users w :
  rc <> SQLITE_ROW ->
  execSelectUsers_loop (S fuel) stmt rc users w = Ok users w.
Proof.
  intros H. simpl. destruct (Z.eqb_spec rc SQLITE_ROW); [contradiction|].
  reflexivity.
Qed.

Lemma loop_row fuel stmt users w :
  execSelectUsers_loop (S fuel) stmt SQLITE_ROW users w =
  (i <- readInt stmt 0 ;;
   n <- readText stmt 1 ;;
   rc' <- execStep stmt ;;
   execSelectUsers_loop fuel stmt rc' (users ++ [mkUser i n])) w.
Proof. reflexivity. Qed.

(** With more fuel than rows, the loop returns the rows the guest
    delivers, after those it was entered with. *)
Lemma loop_complete stmt rc w rows w' :
  Rows stmt rc w rows w' ->
  forall fuel users,
    (List.length rows < fuel)%nat ->
    execSelectUsers_loop fuel stmt rc users w = Ok (users ++ rows) w'.
Proof.
  induction 1 as [rc w Hrc | w i w1 n w2 rc' w3 rows w' Hi Hn Hs _ IH];
    intros fuel users Hf.
  - destruct fuel as [|fuel]; [simpl in Hf; lia|].
    rewrite app_nil_r. now apply loop_exit.
  - destruct fuel as [|fuel]; [simpl in Hf; lia|].
    rewrite loop_row.
    rewrite (bind_Ok _ _ _ _ _ Hi), (bind_Ok _ _ _ _ _ Hn),
      (bind_Ok _ _ _ _ _ Hs).
    rewrite IH by (simpl in Hf; lia).
    now rewrite <- app_assoc.
Qed.

(** Whatever the loop returns was delivered that way. *)
Lemma loop_sound fuel :
  forall stmt rc users w users' w',
    execSelectUsers_loop fuel stmt rc users w = Ok users' w' ->
    exists rows, users' = users ++ rows /\ Rows stmt rc w rows w'.
Proof.
  induction fuel as [|fuel IH]; intros stmt rc users w users' w' H.
  - discriminate.
  - destruct (Z.eq_dec rc SQLITE_ROW) as [-> | Hrc].
    + rewrite loop_row in H.
      apply bind_Ok_inv in H as (i & w1 & Hi & H).
      apply bind_Ok_inv in H as (n & w2 & Hn & H).
      apply bind_Ok_inv in H as (rc' & w3 & Hs & H).
      apply IH in H as (rows & -> & HR).
      exists (mkUser i n :: rows). split.
      * now rewrite <- app_assoc.
      * eapply Rows_row; eauto.
    + rewrite loop_exit in H by assumption. injection H as <- <-.
      exists []. split; [now rewrite app_nil_r | now constructor].
Qed.

(** The code tested by the loop is the raw result of the step export. *)
Lemma execStep_Ok_inv stmt w rc w' :
  execStep stmt w = Ok rc w' ->
  exists r0 rest,
    Call (step (self w)) [uint64 stmt] w = Ok (Some (r0 :: rest)) w' /\
    rc = int r0 /\ (rc = SQLITE_ROW <-> r0 = 100).
Proof.
  unfold execStep. intros H.
  apply bind_Ok_inv in H as (m & w1 & [= <- <-] & H).
  apply bind_Ok_inv in H as (res & w2 & Hc & H).
  apply orPanic_Ok_inv in Hc.
  apply bind_Ok_inv in H as (r0 & w3 & Hf & H).
  apply first_Ok_inv in Hf as [-> [rest ->]].
  injection H as <- <-.
  exists r0, rest. split; [exact Hc|]. split; [reflexivity|].
  apply int_is_row.
  apply Call_Ok_inv in Hc as (fname & r & m' & _ & _ & Hr & _).
  destruct r as [[|x xs]|]; try discriminate.
  injection Hr as -> _. apply uint64_range.
Qed.

Lemma execStep_run stmt w r0 rest w' :
  Call (step (self w)) [uint64 stmt] w = Ok (Some (r0 :: rest)) w' ->
  execStep stmt w = Ok (int r0) w'.
Proof. intros H. unfold execStep. run_with H. reflexivity. Qed.

End StepLoop.

(** C3.  Rows are read exactly while the step export answers 100.
    - A code other than 100 ends the loop: the rows read so far are
      returned, with no error and in the same world (no further call).
    - The code 100 makes the loop read one row (the integer column 0, the
      text column 1), step again and go on with the new code.
    - Hence the loop returns the rows the guest delivers, given more fuel
      than there are rows, and returns nothing else.
    - The code is the raw result of the step export: it is 100 exactly
      when the export returned 100.
    - When the first step does not return 100, the query returns the empty
      sequence, in the world left by that step.
    - When the first step returns 100, the query reads a row, steps again
      and goes on with the loop, starting from that one row.
    - Hence the query returns exactly the rows the guest delivers from
      the code of its first step on, given more fuel than there are
      rows; and whatever it returns was delivered that way. *)
Theorem execSelectUsers_step_loop {G} {RT : Runtime G} (stmt : Z) :
  (forall fuel rc users (w : World G),
      rc <> SQLITE_ROW ->
      execSelectUsers_loop (S fuel) stmt rc users w = Ok users w) /\
  (forall fuel users (w : World G),
      execSelectUsers_loop (S fuel) stmt SQLITE_ROW users w =
      (i <- readInt stmt 0 ;;
       n <- readText stmt 1 ;;
       rc' <- execStep stmt ;;
       execSelectUsers_loop fuel stmt rc' (users ++ [mkUser i n])) w) /\
  (forall rc (w : World G) rows w',
      Rows stmt rc w rows w' ->
      forall fuel users,
        (List.length rows < fuel)%nat ->
        execSelectUsers_loop fuel stmt rc users w = Ok (users ++ rows) w') /\
  (forall fuel rc users (w : World G) users' w',
      execSelectUsers_loop fuel stmt rc users w = Ok users' w' ->
      exists rows, users' = users ++ rows /\ Rows stmt rc w rows w') /\
  (forall (w : World G) rc w',
      execStep stmt w = Ok rc w' ->
      exists r0 rest,
        Call (step (self w)) [uint64 stmt] w = Ok (Some (r0 :: rest)) w' /\
        rc = int r0 /\ (rc = SQLITE_ROW <-> r0 = 100)) /\
  (forall fuel query (w w1 w2 : World G) r0 rest,
      execSelectUsers_prepare query w = Ok stmt w1 ->
      Call (step (self w1)) [uint64 stmt] w1 = Ok (Some (r0 :: rest)) w2 ->
      r0 <> 100 ->
      execSelectUsers (S fuel) query w = Ok [] w2) /\
  (forall fuel query (w w1 w2 : World G) rest,
      execSelectUsers_prepare query w = Ok stmt w1 ->
      Call (step (self w1)) [uint64 stmt] w1 = Ok (Some (100 :: rest)) w2 ->
      execSelectUsers (S fuel) query w =
      (i <- readInt stmt 0 ;;
       n <- readText stmt 1 ;;
       rc' <- execStep stmt ;;
       execSelectUsers_loop fuel stmt rc' [mkUser i n]) w2) /\
  (forall fuel query (w w1 : World G) rc w2 rows w',
      execSelectUsers_prepare query w = Ok stmt w1 ->
      execStep stmt w1 = Ok rc w2 ->
      Rows stmt rc w2 rows w' ->
      (List.length rows < fuel)%nat ->
      execSelectUsers fuel query w = Ok rows w') /\
  (forall fuel query (w : World G) users w',
      execSelectUsers fuel query w = Ok users w' ->
      exists handle w1 rc w2,
        execSelectUsers_prepare query w = Ok handle w1 /\
        execStep handle w1 = Ok rc w2 /\
        Rows handle rc w2 users w').
Proof.
  split; [|split; [|split; [|split; [|split; [|split; [|split; [|split]]]]]]].
  - intros. now apply loop_exit.
  - intros. apply loop_row.
  - intros rc w rows w' H fuel users Hf.
    now apply (loop_complete stmt rc w rows w').
  - intros. eapply loop_sound; eassumption.
  - intros. now apply execStep_Ok_inv.
  - intros fuel query w w1 w2 r0 rest Hp Hc Hr.
    unfold execSelectUsers.
    rewrite (bind_Ok _ _ _ _ _ Hp).
    rewrite (bind_Ok _ _ _ _ _ (execStep_run _ _ _ _ _ Hc)).
    apply loop_exit. intros E. apply Hr.
    destruct (execStep_Ok_inv _ _ _ _ (execStep_run _ _ _ _ _ Hc))
      as (r1 & rest1 & Hc1 & _ & I).
    rewrite Hc in Hc1. injection Hc1 as <- _. now apply I.
  - intros fuel query w w1 w2 rest Hp Hc.
    unfold execSelectUsers.
    rewrite (bind_Ok _ _ _ _ _ Hp).
    rewrite (bind_Ok _ _ _ _ _ (execStep_run _ _ _ _ _ Hc)).
    change (int 100) with SQLITE_ROW. apply loop_row.
  - intros fuel query w w1 rc w2 rows w' Hp Hs HR Hf.
    unfold execSelectUsers.
    rewrite (bind_Ok _ _ _ _ _ Hp), (bind_Ok _ _ _ _ _ Hs).
    apply (loop_complete stmt rc w2 rows w' HR fuel [] Hf).
  - intros fuel query w users w' H.
    unfold execSelectUsers in H.
    apply bind_Ok_inv in H as (handle & w1 & Hp & H).
    apply bind_Ok_inv in H as (rc & w2 & Hs & H).
    apply loop_sound in H as (rows & E & HR). cbn [app] in E. subst rows.
    exists handle, w1, rc, w2. auto.
Qed.

Lemma execSelectUsers_step_loop_witness :
  (* a statement with one row [(1, go)], the loop entered after a first
     step that returned 100 *)
  let text := zeros 8 ++ str "go" ++ zeros 6 in
  let w := opened 7 (zeros 16)
             [reply [1]; replyMem [] text; reply [8]; reply [2];
              reply [101]] in
  (* a query whose first step returns 101 *)
  let buf := zeros 32 ++ envelope 0 5 0 ++ zeros 4 in
  let q := opened 7 (zeros 48)
             [reply [0]; replyMem [] buf; reply [32]; reply [101]] in
  (* a query with the one row [(1, go)]: the prepare, a first step that
     returns 100, the row with its text at 8, a step that returns 101 *)
  let far := zeros 8 ++ str "go" ++ zeros 38 in
  let one := opened 7 (zeros 48)
               [reply [0]; replyMem [] buf; reply [32];
                reply [100];
                reply [1]; replyMem [] far; reply [8]; reply [2];
                reply [101]] in
  (exists w',
      execSelectUsers_loop (RT := scripted allExports) 2 5 SQLITE_ROW [] w
      = Ok ([] ++ [mkUser 1 (str "go")]) w') /\
  execSelectUsers_loop (RT := scripted allExports) 1 5 101 [] w = Ok [] w /\
  (exists rows,
      [mkUser 1 (str "go")] = [] ++ rows /\
      exists w', Rows (RT := scripted allExports) 5 SQLITE_ROW w rows w') /\
  (exists r0 rest w',
      Call (RT := scripted allExports) (step (self w)) [uint64 5] w
      = Ok (Some (r0 :: rest)) w' /\
      1 = int r0 /\ (1 = SQLITE_ROW <-> r0 = 100)) /\
  (exists w2,
      execSelectUsers (RT := scripted allExports) 1 (str "SELECT 1") q
      = Ok [] w2) /\
  (exists w2,
      execSelectUsers (RT := scripted allExports) 2 (str "SELECT 1") one =
      (i <- readInt (RT := scripted allExports) 5 0 ;;
       n <- readText (RT := scripted allExports) 5 1 ;;
       rc' <- execStep (RT := scripted allExports) 5 ;;
       execSelectUsers_loop (RT := scripted allExports) 1 5 rc'
         [mkUser i n]) w2 /\
      trace w2 =
      [EvCall "allocate" [8; 0] (Some [0]);
       EvWrite 0 (str "SELECT 1") true;
       EvCall "sqlite3_prepare_v2" [7; 0; 8] (Some []);
       EvCall "get_result_ptr" [] (Some [32]);
       EvReadUint32Le 32 true; EvReadUint32Le 36 true;
       EvCall "sqlite3_step" [5] (Some [100])]) /\
  (exists w',
      execSelectUsers (RT := scripted allExports) 2 (str "SELECT 1") one
      = Ok [mkUser 1 (str "go")] w') /\
  (exists handle w1 rc w2 w',
      execSelectUsers_prepare (RT := scripted allExports) (str "SELECT 1") one
      = Ok handle w1 /\
      execStep (RT := scripted allExports) handle w1 = Ok rc w2 /\
      Rows (RT := scripted allExports) handle rc w2
        [mkUser 1 (str "go")] w').
Proof.
  intros text w buf q far one.
  destruct (execSelectUsers_step_loop (RT := scripted allExports) 5)
    as (Hexit & _ & Hcomplete & Hsound & Hcode & Hfirst & Hrow
        & Hquery & Hback).
  split; [|split; [|split; [|split; [|split; [|split; [|split]]]]]].
  - eexists. eapply Hcomplete; [|simpl; lia].
    eapply Rows_row.
    + vm_compute. reflexivity.
    + vm_compute. reflexivity.
    + vm_compute. reflexivity.
    + apply Rows_done. vm_compute. discriminate.
  - apply Hexit. vm_compute. discriminate.
  - edestruct (Hsound 2%nat SQLITE_ROW [] w) as (rows & E & R).
    + vm_compute. reflexivity.
    + exists rows. split; [exact E|]. eexists. exact R.
  - edestruct (Hcode w) as (r0 & rest & C & E & I).
    + vm_compute. reflexivity.
    + exists r0, rest. eexists. split; [exact C|]. split; [exact E | exact I].
  - eexists. eapply Hfirst.
    + vm_compute. reflexivity.
    + vm_compute. reflexivity.
    + discriminate.
  - eexists. split.
    + eapply (Hrow 1%nat (str "SELECT 1") one).
      * vm_compute. reflexivity.
      * vm_compute. reflexivity.
    + reflexivity.
  - eexists. eapply (Hquery 2%nat (str "SELECT 1") one).
    + vm_compute. reflexivity.
    + vm_compute. reflexivity.
    + eapply Rows_row.
      * vm_compute. reflexivity.
      * vm_compute. reflexivity.
      * vm_compute. reflexivity.
      * apply Rows_done. vm_compute. discriminate.
    + simpl. lia.
  - edestruct (Hback 2%nat (str "SELECT 1") one)
      as (handle & w1 & rc & w2 & Hp & Hs & HR).
    + vm_compute. reflexivity.
    + exists handle, w1, rc, w2. eexists. split; [exact Hp|].
      split; [exact Hs | exact HR].
Defined.

(* ================================================================== *)
(** * Opening the database *)

Lemma snoc3 {A} (l : list A) a b c :
  ((l ++ [a]) ++ [b]) ++ [c] = l ++ [a; b; c].
Proof. now rewrite <- !app_assoc. Qed.

Tactic Notation "inv_bind" hyp(H) "as" ident(a) ident(w) ident(E) :=
  apply bind_Ok_inv in H as (a & w & E & H).

(** A successful open, read backwards: the last call was to
    [get_result_ptr], the status at the address it returned was zero, and
    the handle is the [uint32] found four bytes further. *)
Lemma newSqlModule_open_Ok_inv {G} {RT : Runtime G} (w : World G) (h : Z)
    (w' : World G) :
  newSqlModule_open w = Ok h w' ->
  exists evs g base rest,
    getResultPtr (self w) = Some g /\
    self w' = self w /\
    trace w' =
    evs ++ [EvCall g [] (Some (base :: rest));
            EvReadUint32Le (uint32 base) true;
            EvReadUint32Le (uint32 (uint64 (base + 4))) true] /\
    Memory.ReadUint32Le (buffer (machine w')) (uint32 base) = Some 0 /\
    Memory.ReadUint32Le (buffer (machine w')) (uint32 (uint64 (base + 4)))
    = Some h.
Proof.
  unfold newSqlModule_open. intros H.
  inv_bind H as p1 w2 E2. destruct p1 as [dbNamePtr dbNameSize].
  apply allocateString_Ok_inv in E2
    as (f1 & r1 & rest1 & m1 & buf1 & _ & _ & _ & _ & _ & ->).
  inv_bind H as p2 w3 E3. destruct p2 as [fsNamePtr fsNameSize].
  apply allocateString_Ok_inv in E3
    as (f2 & r2 & rest2 & m2 & buf2 & _ & _ & _ & _ & _ & ->).
  inv_bind H as s4 w4 E4. injection E4 as <- <-.
  inv_bind H as r5 w5 E5. apply orPanic_Ok_inv, Call_Ok_inv in E5
    as (f3 & r3 & m3 & _ & _ & _ & ->).
  inv_bind H as s6 w6 E6. injection E6 as <- <-.
  inv_bind H as res w7 E7. apply orPanic_Ok_inv, Call_Ok_inv in E7
    as (g & r4 & m4 & Hg & _ & _ & ->).
  inv_bind H as base w8 E8. apply first_Ok_inv in E8 as [-> [rest ->]].
  inv_bind H as u9 w9 E9. rewrite ensureStatusCodeSuccess_run in E9.
  cbn [buffer machine] in E9.
  destruct (Memory.ReadUint32Le (buffer m4) (uint32 base)) as [c|] eqn:Hs;
    [|discriminate].
  destruct (Z.eqb_spec c 0) as [-> | Hc]; [|discriminate].
  injection E9 as E9. subst w9.
  apply orPanic_Ok_inv in H.
  unfold ReadUint32Le in H. cbn [buffer machine record] in H.
  injection H as Hh <-.
  cbn [self machine trace buffer record] in *.
  eexists _, g, base, rest. split; [exact Hg|]. split; [reflexivity|].
  split; [|split].
  - rewrite Hh. cbn [isSome]. rewrite snoc3. reflexivity.
  - exact Hs.
  - exact Hh.
Qed.

(** A successful [newSqlModule], read backwards: the struct is bound to
    the exports and keeps the handle read by the open. *)
Lemma newSqlModule_Ok_inv {G} {RT : Runtime G} (w w' : World G) :
  newSqlModule w = Ok tt w' ->
  exists evs base rest h,
    bound (self w') /\
    dbHandle (self w') = h /\
    trace w' =
    evs ++ [EvCall "get_result_ptr" [] (Some (base :: rest));
            EvReadUint32Le (uint32 base) true;
            EvReadUint32Le (uint32 (uint64 (base + 4))) true] /\
    Memory.ReadUint32Le (buffer (machine w')) (uint32 base) = Some 0 /\
    Memory.ReadUint32Le (buffer (machine w')) (uint32 (uint64 (base + 4)))
    = Some h.
Proof.
  unfold newSqlModule. intros H.
  inv_bind H as u0 w0 E0. clear E0.
  inv_bind H as u1 w1 E1. unfold setSelf in E1. injection E1 as _ <-.
  inv_bind H as h w2 E2.
  apply newSqlModule_open_Ok_inv in E2
    as (evs & g & base & rest & Hg & Hself & Ht & Hs & Hh).
  inv_bind H as s3 w3 E3. injection E3 as <- <-.
  unfold setSelf in H. injection H as <-.
  cbn [self machine trace buffer] in *.
  unfold ExportedFunction in Hg.
  destruct (exported "get_result_ptr"); [|discriminate].
  injection Hg as <-.
  exists evs, base, rest, h. split; [|split; [|split; [|split]]].
  - unfold bound. rewrite Hself. repeat split; reflexivity.
  - cbn [dbHandle]. apply uint64_small.
    apply MemoryFacts.ReadUint32Le_range in Hh.
    assert (2 ^ 32 < 2 ^ 64) by reflexivity. lia.
  - exact Ht.
  - exact Hs.
  - exact Hh.
Qed.

(** A successful prepare, read backwards. *)
Lemma execSelectUsers_prepare_Ok_inv {G} {RT : Runtime G}
    (query : gostring) (w : World G) (stmt : Z) (w' : World G) :
  execSelectUsers_prepare query w = Ok stmt w' ->
  exists evs g base rest,
    getResultPtr (self w) = Some g /\
    self w' = self w /\
    stmt <> 0 /\
    trace w' =
    evs ++ [EvCall g [] (Some (base :: rest));
            EvReadUint32Le (uint32 base) true;
            EvReadUint32Le (uint32 (uint64 (base + 4))) true] /\
    Memory.ReadUint32Le (buffer (machine w')) (uint32 base) = Some 0 /\
    Memory.ReadUint32Le (buffer (machine w')) (uint32 (uint64 (base + 4)))
    = Some stmt.
Proof.
  unfold execSelectUsers_prepare. intros H.
  inv_bind H as p1 w1 E1. destruct p1 as [queryPtr querySize].
  apply allocateString_Ok_inv in E1
    as (f1 & r1 & rest1 & m1 & buf1 & _ & _ & _ & _ & _ & ->).
  inv_bind H as s2 w2 E2. injection E2 as <- <-.
  inv_bind H as r3 w3 E3. apply orPanic_Ok_inv, Call_Ok_inv in E3
    as (f3 & r3' & m3 & _ & _ & _ & ->).
  inv_bind H as s4 w4 E4. injection E4 as <- <-.
  inv_bind H as res w5 E5. apply orPanic_Ok_inv, Call_Ok_inv in E5
    as (g & r5 & m5 & Hg & _ & _ & ->).
  inv_bind H as base w6 E6. apply first_Ok_inv in E6 as [-> [rest ->]].
  inv_bind H as u7 w7 E7. rewrite ensureStatusCodeSuccess_run in E7.
  cbn [buffer machine] in E7.
  destruct (Memory.ReadUint32Le (buffer m5) (uint32 base)) as [c|] eqn:Hs;
    [|discriminate].
  destruct (Z.eqb_spec c 0) as [-> | Hc]; [|discriminate].
  injection E7 as E7. subst w7.
  inv_bind H as r8 w8 E8.
  unfold ReadUint32Le in E8. cbn [buffer machine record] in E8.
  injection E8 as Hr <-.
  cbn [self machine trace buffer record] in *.
  destruct r8 as [s|]; [|discriminate].
  destruct (Z.eqb_spec s 0) as [-> | Hz]; [discriminate|].
  injection H as <- <-.
  cbn [self machine trace buffer isSome].
  eexists _, g, base, rest. split; [exact Hg|]. split; [reflexivity|].
  split; [exact Hz|]. split; [|split].
  - unfold record. cbn [self machine trace].
    rewrite Hr. cbn [isSome]. rewrite snoc3. reflexivity.
  - exact Hs.
  - exact Hr.
Qed.

(* ================================================================== *)
(** * Where the handles are *)

(** C1, as amended.  The handle of a successful open (the database
    handle kept in the struct) and of a successful prepare (the statement
    handle) is the 4-byte little-endian value stored 4 bytes after the
    address returned by [get_result_ptr], the envelope's base: it is the
    envelope's field at offset 4 itself, not a value behind it. *)
Theorem handle_is_envelope_field {G} {RT : Runtime G} :
  (forall w w' : World G,
      newSqlModule w = Ok tt w' ->
      exists evs base rest,
        trace w' =
        evs ++ [EvCall "get_result_ptr" [] (Some (base :: rest));
                EvReadUint32Le (uint32 base) true;
                EvReadUint32Le (uint32 (uint32 base + 4)) true] /\
        Memory.ReadUint32Le (buffer (machine w')) (uint32 (uint32 base + 4))
        = Some (dbHandle (self w'))) /\
  (forall query (w : World G) stmt w',
      execSelectUsers_prepare query w = Ok stmt w' ->
      exists evs g base rest,
        getResultPtr (self w) = Some g /\
        trace w' =
        evs ++ [EvCall g [] (Some (base :: rest));
                EvReadUint32Le (uint32 base) true;
                EvReadUint32Le (uint32 (uint32 base + 4)) true] /\
        Memory.ReadUint32Le (buffer (machine w')) (uint32 (uint32 base + 4))
        = Some stmt).
Proof.
  split.
  - intros w w' H.
    apply newSqlModule_Ok_inv in H
      as (evs & base & rest & h & _ & Hd & Ht & _ & Hh).
    rewrite uint32_add in Ht, Hh. subst h.
    exists evs, base, rest. split; assumption.
  - intros query w stmt w' H.
    apply execSelectUsers_prepare_Ok_inv in H
      as (evs & g & base & rest & Hg & _ & _ & Ht & _ & Hh).
    rewrite uint32_add in Ht, Hh.
    exists evs, g, base, rest. repeat split; assumption.
Qed.

Lemma handle_is_envelope_field_witness :
  let buf := zeros 16 ++ envelope 0 24 0 ++ le32 99 in
  let w := boot (zeros 32)
             [reply [0]; reply [8]; replyMem [] buf; reply [16]] in
  let q := opened 7 (zeros 32) [reply [0]; replyMem [] buf; reply [16]] in
  (exists (w' : World (list Reply)) evs base rest,
      trace w' =
      evs ++ [EvCall "get_result_ptr" [] (Some (base :: rest));
              EvReadUint32Le (uint32 base) true;
              EvReadUint32Le (uint32 (uint32 base + 4)) true] /\
      Memory.ReadUint32Le (buffer (machine w')) (uint32 (uint32 base + 4))
      = Some (dbHandle (self w'))) /\
  (exists (w' : World (list Reply)) evs g base rest,
      getResultPtr (self q) = Some g /\
      trace w' =
      evs ++ [EvCall g [] (Some (base :: rest));
              EvReadUint32Le (uint32 base) true;
              EvReadUint32Le (uint32 (uint32 base + 4)) true] /\
      Memory.ReadUint32Le (buffer (machine w')) (uint32 (uint32 base + 4))
      = Some 24).
Proof.
  intros buf w q.
  destruct (handle_is_envelope_field (RT := scripted allExports))
    as [Hopen Hprep].
  split.
  - eexists. eapply Hopen with (w := w). vm_compute. reflexivity.
  - eexists. eapply Hprep with (query := str "SELECT 1") (w := q).
    vm_compute. reflexivity.
Defined.

(** C1 as worded fails: in this run the envelope is at 16, its field at
    offset 4 holds 24, and the word at [24 + 4] holds 99.  Both the open
    and the prepare succeed with the handle 24. *)
Lemma handle_not_behind_auxPointer :
  let buf := zeros 16 ++ envelope 0 24 0 ++ le32 99 in
  let w := boot (zeros 32)
             [reply [0]; reply [8]; replyMem [] buf; reply [16]] in
  let q := opened 7 (zeros 32) [reply [0]; replyMem [] buf; reply [16]] in
  (exists w',
      newSqlModule (RT := scripted allExports) w = Ok tt w' /\
      buffer (machine w') = buf /\
      dbHandle (self w') = 24 /\
      ~ handle_behind_auxPointer (buffer (machine w')) 16
          (dbHandle (self w'))) /\
  (exists w',
      execSelectUsers_prepare (RT := scripted allExports) (str "SELECT 1") q
      = Ok 24 w' /\
      buffer (machine w') = buf /\
      ~ handle_behind_auxPointer (buffer (machine w')) 16 24).
Proof.
  intros buf w q. split.
  - eexists. split; [vm_compute; reflexivity|].
    split; [reflexivity|]. split; [reflexivity|].
    intros (aux & H1 & H2). vm_compute in H1. injection H1 as <-.
    vm_compute in H2. discriminate.
  - eexists. split; [vm_compute; reflexivity|].
    split; [reflexivity|].
    intros (aux & H1 & H2). vm_compute in H1. injection H1 as <-.
    vm_compute in H2. discriminate.
Qed.

(* ================================================================== *)
(** * The error message of a failed statement *)

(** C2, as amended.  After the exec call, with the envelope at [base]
    (the address returned by [get_result_ptr]) holding a non-zero status,
    the message's address is the [uint32] at [base + 4] and its length the
    [uint32] at [base + 8]: the envelope's own fields at offsets 4 and 8.
    - With a length of zero the failure carries the empty message and no
      bytes are read: the three field reads are the only accesses.
    - With a non-zero length and the range inside the memory, the failure
      carries the bytes of the range, and these are not empty.
    - With a non-zero length and the range not inside the memory, the
      failure is that of the refused read. *)
Theorem execSql_error_message {G} {RT : Runtime G}
    (query : gostring) (w w1 w2 w3 : World G)
    (queryPtr querySize base : Z) (r rest : list Z)
    (status errMsgPtr errMsgSize : Z) :
  allocateString query w = Ok (queryPtr, querySize) w1 ->
  Call (exec (self w1)) [dbHandle (self w1); queryPtr; querySize; 0; 0] w1
  = Ok (Some r) w2 ->
  Call (getResultPtr (self w2)) [] w2 = Ok (Some (base :: rest)) w3 ->
  Memory.ReadUint32Le (buffer (machine w3)) (uint32 base) = Some status ->
  status <> 0 ->
  Memory.ReadUint32Le (buffer (machine w3)) (uint32 (uint32 base + 4))
  = Some errMsgPtr ->
  Memory.ReadUint32Le (buffer (machine w3)) (uint32 (uint32 base + 8))
  = Some errMsgSize ->
  (errMsgSize = 0 ->
   execSql query w =
   Panic (EngineError status [])
     (mkWorld (self w3) (machine w3)
        (trace w3 ++ [EvReadUint32Le (uint32 (uint32 base + 4)) true;
                      EvReadUint32Le (uint32 (uint32 base + 8)) true;
                      EvReadUint32Le (uint32 base) true]))) /\
  (errMsgSize <> 0 ->
   forall msg,
     Memory.Read (buffer (machine w3)) errMsgPtr errMsgSize = Some msg ->
     msg <> [] /\
     execSql query w =
     Panic (EngineError status msg)
       (mkWorld (self w3) (machine w3)
          (trace w3 ++ [EvReadUint32Le (uint32 (uint32 base + 4)) true;
                        EvReadUint32Le (uint32 (uint32 base + 8)) true;
                        EvRead errMsgPtr errMsgSize true;
                        EvReadUint32Le (uint32 base) true]))) /\
  (errMsgSize <> 0 ->
   Memory.Read (buffer (machine w3)) errMsgPtr errMsgSize = None ->
   execSql query w =
   Panic (MemoryAccessError "cannot read err msg")
     (mkWorld (self w3) (machine w3)
        (trace w3 ++ [EvReadUint32Le (uint32 (uint32 base + 4)) true;
                      EvReadUint32Le (uint32 (uint32 base + 8)) true;
                      EvRead errMsgPtr errMsgSize false]))).
Proof.
  intros Ha He Hg Hs Hnz Hp Hn.
  assert (Run : execSql query w =
    (errMsgPtr <- orPanic (ReadUint32Le (uint32 (uint64 (base + 4))))
                    (MemoryAccessError "cannot read err msg ptr") ;;
     errMsgSize <- orPanic (ReadUint32Le (uint32 (uint64 (base + 8))))
                     (MemoryAccessError "cannot read err msg size") ;;
     errMsg <- (if negb (errMsgSize =? 0)
                then orPanic (Read errMsgPtr errMsgSize)
                       (MemoryAccessError "cannot read err msg")
                else ret []) ;;
     ensureStatusCodeSuccess (uint32 base) errMsg) w3).
  { unfold execSql. run_with Ha. run_with He. run_with Hg. reflexivity. }
  rewrite Run. clear Run. rewrite <- !uint32_add in *.
  erewrite bind_Ok by (apply ReadUint32Le_run; exact Hp).
  erewrite bind_Ok by (apply ReadUint32Le_run; exact Hn).
  split; [|split].
  - intros ->. change (negb (0 =? 0)) with false. cbv beta iota.
    unfold bind at 1, ret at 1.
    rewrite ensureStatusCodeSuccess_run. unfold record.
    cbn [buffer machine self trace]. rewrite Hs.
    destruct (Z.eqb_spec status 0) as [E | _]; [contradiction|].
    rewrite snoc3. reflexivity.
  - intros Hsz msg Hm.
    destruct (Z.eqb_spec errMsgSize 0) as [E | _]; [contradiction|].
    cbn [negb].
    erewrite bind_Ok by (apply Read_run; exact Hm).
    rewrite ensureStatusCodeSuccess_run. unfold record.
    cbn [buffer machine self trace]. rewrite Hs.
    destruct (Z.eqb_spec status 0) as [E | _]; [contradiction|].
    split.
    + intros ->.
      apply MemoryFacts.ReadUint32Le_range in Hp, Hn.
      apply MemoryFacts.Read_length in Hm; [|lia|lia].
      apply Hsz. rewrite <- Hm. reflexivity.
    + rewrite snoc3, <- app_assoc. reflexivity.
  - intros Hsz Hm.
    destruct (Z.eqb_spec errMsgSize 0) as [E | _]; [contradiction|].
    cbn [negb].
    erewrite bind_Panic by (apply Read_fail; exact Hm).
    unfold record. cbn [self machine trace]. rewrite snoc3. reflexivity.
Qed.

Lemma execSql_error_message_witness :
  (* the envelope at 16: status 1, message of 3 bytes at 32 *)
  let buf := zeros 16 ++ envelope 1 32 3 ++ zeros 4 ++ str "bad" ++ zeros 9 in
  let w := opened 7 (zeros 48) [reply [0]; replyMem [] buf; reply [16]] in
  (* the envelope at 16: status 1, no message *)
  let buf0 := zeros 16 ++ envelope 1 0 0 ++ zeros 20 in
  let w0 := opened 7 (zeros 48) [reply [0]; replyMem [] buf0; reply [16]] in
  (exists w3,
      (3 <> 0 ->
       forall msg,
         Memory.Read (buffer (machine w3)) 32 3 = Some msg ->
         msg <> [] /\
         execSql (RT := scripted allExports) (str "DROP x") w =
         Panic (EngineError 1 msg)
           (mkWorld (self w3) (machine w3)
              (trace w3 ++ [EvReadUint32Le (uint32 (uint32 16 + 4)) true;
                            EvReadUint32Le (uint32 (uint32 16 + 8)) true;
                            EvRead 32 3 true;
                            EvReadUint32Le (uint32 16) true]))) /\
      buffer (machine w3) = buf) /\
  (exists w3,
      (0 = 0 ->
       execSql (RT := scripted allExports) (str "DROP x") w0 =
       Panic (EngineError 1 [])
         (mkWorld (self w3) (machine w3)
            (trace w3 ++ [EvReadUint32Le (uint32 (uint32 16 + 4)) true;
                          EvReadUint32Le (uint32 (uint32 16 + 8)) true;
                          EvReadUint32Le (uint32 16) true]))) /\
      buffer (machine w3) = buf0).
Proof.
  intros buf w buf0 w0. split.
  - eexists. split.
    + eapply (execSql_error_message (RT := scripted allExports)
                (str "DROP x") w _ _ _ 0 6 16 [] [] 1 32 3).
      * vm_compute. reflexivity.
      * vm_compute. reflexivity.
      * vm_compute. reflexivity.
      * vm_compute. reflexivity.
      * discriminate.
      * vm_compute. reflexivity.
      * vm_compute. reflexivity.
    + reflexivity.
  - eexists. split.
    + eapply (execSql_error_message (RT := scripted allExports)
                (str "DROP x") w0 _ _ _ 0 6 16 [] [] 1 0 0).
      * vm_compute. reflexivity.
      * vm_compute. reflexivity.
      * vm_compute. reflexivity.
      * vm_compute. reflexivity.
      * discriminate.
      * vm_compute. reflexivity.
      * vm_compute. reflexivity.
    + reflexivity.
Defined.

(** C2 as worded fails: in this run the envelope is at 16 with status 1,
    its fields at offsets 4 and 8 hold 32 and 3, and the failure carries
    the three bytes at 32.  Behind the pointer 32, the words at [32 + 4]
    and [32 + 8] are both zero: read that way the message would be
    empty. *)
Lemma message_not_behind_auxPointer :
  let buf := zeros 16 ++ envelope 1 32 3 ++ zeros 4 ++ str "bad" ++ zeros 9 in
  let w := opened 7 (zeros 48) [reply [0]; replyMem [] buf; reply [16]] in
  exists w',
    execSql (RT := scripted allExports) (str "DROP x") w
    = Panic (EngineError 1 (str "bad")) w' /\
    buffer (machine w') = buf /\
    Memory.ReadUint32Le buf (uint32 16) = Some 1 /\
    ~ message_behind_auxPointer (buffer (machine w')) 16 (str "bad").
Proof.
  intros buf w. eexists. split; [vm_compute; reflexivity|].
  split; [reflexivity|]. split; [vm_compute; reflexivity|].
  intros (aux & ptr & size & H1 & H2 & H3 & H).
  vm_compute in H1. injection H1 as <-.
  vm_compute in H2. injection H2 as <-.
  vm_compute in H3. injection H3 as <-.
  destruct H as [[_ H] | [H _]]; [discriminate H | now apply H].
Qed.

(* ================================================================== *)
(** * Calls that fail *)

(** C8.  Calling an export fails in two ways, both fatal.
    - The module has no export of that name: the reference bound at
      construction is nil and the call panics before anything reaches the
      instance (no event is added).
    - The invocation traps: the call returns an error and the caller
      panics with it; the one call is the only event added.
    In both cases the panic ends the operation that made the call: what
    was to follow is not run, the call is not repeated.  Shown for any
    export and arguments, then for the step call, for the query that
    makes it, and inside the row loop. *)
Theorem call_failure_is_fatal {G} {RT : Runtime G}
    (fname : string) (params : list Z) (context : string) (w : World G) :
  (exported fname = false ->
   ExportedFunction fname = None /\
   isCallError NilDereference = true /\
   orPanic (Call (ExportedFunction fname) params) (CallError context) w
   = Panic NilDereference w) /\
  (forall m',
      exported fname = true ->
      invoke fname params (machine w) = (None, m') ->
      isCallError (CallError context) = true /\
      orPanic (Call (ExportedFunction fname) params) (CallError context) w
      = Panic (CallError context)
          (mkWorld (self w) m' (trace w ++ [EvCall fname params None]))) /\
  (forall A B (m : M G A) (k : A -> M G B) e w',
      m w = Panic e w' -> bind m k w = Panic e w') /\
  (forall stmt,
      step (self w) = ExportedFunction "sqlite3_step" ->
      (exported "sqlite3_step" = false ->
       execStep stmt w = Panic NilDereference w) /\
      (forall m',
          exported "sqlite3_step" = true ->
          invoke "sqlite3_step" [uint64 stmt] (machine w) = (None, m') ->
          execStep stmt w =
          Panic (CallError "failed to call step: %v")
            (mkWorld (self w) m'
               (trace w ++ [EvCall "sqlite3_step" [uint64 stmt] None])))) /\
  (forall fuel query w0 stmt e w',
      execSelectUsers_prepare query w0 = Ok stmt w ->
      execStep stmt w = Panic e w' ->
      execSelectUsers fuel query w0 = Panic e w') /\
  (forall fuel stmt users i w1 n w2 e w',
      readInt stmt 0 w = Ok i w1 ->
      readText stmt 1 w1 = Ok n w2 ->
      execStep stmt w2 = Panic e w' ->
      execSelectUsers_loop (S fuel) stmt SQLITE_ROW users w = Panic e w').
Proof.
  split; [|split; [|split; [|split; [|split]]]].
  - intros H. unfold ExportedFunction. rewrite H. auto.
  - intros m' H Hi. split; [reflexivity|].
    unfold ExportedFunction. rewrite H.
    apply orPanic_None. rewrite (Call_run _ _ _ _ _ Hi). reflexivity.
  - intros. now apply bind_Panic.
  - intros stmt Hb. unfold execStep, ExportedFunction in *. split.
    + intros H. rewrite H in Hb. expose. now rewrite Hb.
    + intros m' H Hi. rewrite H in Hb. expose. rewrite Hb.
      rewrite (Call_run _ _ _ _ _ Hi). reflexivity.
  - intros fuel query w0 stmt e w' Hp Hs. unfold execSelectUsers.
    rewrite (bind_Ok _ _ _ _ _ Hp). now apply bind_Panic.
  - intros fuel stmt users i w1 n w2 e w' Hi Hn Hs. rewrite loop_row.
    rewrite (bind_Ok _ _ _ _ _ Hi), (bind_Ok _ _ _ _ _ Hn).
    now apply bind_Panic.
Qed.

Lemma call_failure_is_fatal_witness :
  (* no export [sqlite3_step] *)
  let w := opened 7 (zeros 8) [reply [100]] in
  (* an export [sqlite3_step] that traps *)
  let t := opened 7 (zeros 8) [trap] in
  (ExportedFunction (RT := scripted (without "sqlite3_step")) "sqlite3_step"
   = None /\
   isCallError NilDereference = true /\
   orPanic (Call (RT := scripted (without "sqlite3_step"))
              (ExportedFunction (RT := scripted (without "sqlite3_step"))
                 "sqlite3_step") [5])
     (CallError "failed to call step: %v") w
   = Panic NilDereference w) /\
  (isCallError (CallError "failed to call step: %v") = true /\
   orPanic (Call (RT := scripted allExports)
              (ExportedFunction (RT := scripted allExports) "sqlite3_step")
              [5])
     (CallError "failed to call step: %v") t
   = Panic (CallError "failed to call step: %v")
       (mkWorld (self t) (mkMachine (zeros 8) [])
          (trace t ++ [EvCall "sqlite3_step" [5] None]))) /\
  execStep (RT := scripted allExports) 5 t =
  Panic (CallError "failed to call step: %v")
    (mkWorld (self t) (mkMachine (zeros 8) [])
       (trace t ++ [EvCall "sqlite3_step" [uint64 5] None])).
Proof.
  intros w t. split; [|split].
  - apply (call_failure_is_fatal (RT := scripted (without "sqlite3_step"))
             "sqlite3_step" [5] "failed to call step: %v" w).
    reflexivity.
  - apply (call_failure_is_fatal (RT := scripted allExports)
             "sqlite3_step" [5] "failed to call step: %v" t);
      reflexivity.
  - apply (call_failure_is_fatal (RT := scripted allExports)
             "sqlite3_step" [5] "failed to call step: %v" t);
      reflexivity.
Defined.

(* ================================================================== *)
(** * Every method stays inside the footprint *)

Section Footprint.

Context {G : Type} {RT : Runtime G}.
Implicit Types w : World G.

Lemma steady_refl w : steady w w.
Proof.
  split; [reflexivity|]. exists []. split; [now rewrite app_nil_r | constructor].
Qed.

Lemma steady_trans w1 w2 w3 : steady w1 w2 -> steady w2 w3 -> steady w1 w3.
Proof.
  intros [S1 (e1 & T1 & F1)] [S2 (e2 & T2 & F2)].
  split; [congruence|]. exists (e1 ++ e2). split.
  - rewrite T2, T1. now rewrite app_assoc.
  - apply Forall_app. split; [exact F1|]. now rewrite <- S1.
Qed.

Lemma steady_halted e w1 w2 w3 :
  steady w1 w2 -> halted e w2 w3 -> halted e w1 w3.
Proof.
  intros [S1 (e1 & T1 & F1)] [S2 (e2 & tail & T2 & F2 & Ht)].
  split; [congruence|]. exists (e1 ++ e2), tail. split; [|split].
  - rewrite T2, T1. now rewrite <- !app_assoc.
  - apply Forall_app. split; [exact F1|]. now rewrite <- S1.
  - exact Ht.
Qed.

Lemma halted_now e w w' : steady w w' -> halted e w w'.
Proof.
  intros [S1 (e1 & T1 & F1)]. split; [exact S1|].
  exists e1, []. rewrite app_nil_r. auto.
Qed.

Lemma steady_event w ev :
  Emits (self w) ev -> steady w (record ev w).
Proof.
  intros H. split; [reflexivity|]. exists [ev]. split; [reflexivity|].
  now constructor.
Qed.

Lemma halted_event e w ev :
  Fatal ev -> isMemoryError e = true -> halted e w (record ev w).
Proof.
  intros H He. split; [reflexivity|]. exists [], [ev].
  split; [reflexivity|]. split; [constructor|]. right. eauto.
Qed.

Lemma contained_ret {A} (a : A) w : contained (ret a) w.
Proof. apply steady_refl. Qed.

Lemma contained_panic {A} e w : contained (@panic G A e) w.
Proof. apply halted_now, steady_refl. Qed.

Lemma contained_bind {A B} (m : M G A) (k : A -> M G B) w :
  contained m w ->
  (forall a w', m w = Ok a w' -> contained (k a) w') ->
  contained (bind m k) w.
Proof.
  unfold contained, bind. intros Hm Hk.
  destruct (m w) as [a w1 | e w1 | w1]; try exact Hm.
  specialize (Hk a w1 eq_refl).
  destruct (k a w1) as [b w2 | e w2 | w2].
  - eapply steady_trans; eassumption.
  - eapply steady_halted; eassumption.
  - eapply steady_trans; eassumption.
Qed.

Lemma contained_first res w : contained (first res) w.
Proof.
  destruct res; [apply contained_panic | apply contained_ret].
Qed.

(** A call of a bound export with arguments of the footprint, followed by
    the check of [err]. *)
Lemma contained_Call f params e w :
  (forall fname r, f = Some fname -> Emits (self w) (EvCall fname params r)) ->
  contained (orPanic (Call f params) e) w.
Proof.
  intros H. unfold contained, orPanic, bind, Call.
  destruct f as [fname|]; [|apply halted_now, steady_refl].
  destruct (invoke fname params (machine w)) as [[r|] m'];
    cbn [option_map]; unfold ret, panic.
  - split; [reflexivity|]. eexists. split; [reflexivity|].
    constructor; [|constructor]. now apply H.
  - apply halted_now. split; [reflexivity|]. eexists. split; [reflexivity|].
    constructor; [|constructor]. now apply H.
Qed.

Lemma contained_ReadUint32Le offset context w :
  contained (orPanic (ReadUint32Le offset) (MemoryAccessError context)) w.
Proof.
  unfold contained, orPanic, bind, ReadUint32Le.
  destruct (Memory.ReadUint32Le (buffer (machine w)) offset);
    cbn [isSome]; unfold ret, panic.
  - apply steady_event. constructor.
  - apply halted_event; [constructor | reflexivity].
Qed.

Lemma contained_Read offset byteCount context w :
  contained (orPanic (Read offset byteCount) (MemoryAccessError context)) w.
Proof.
  unfold contained, orPanic, bind, Read.
  destruct (Memory.Read (buffer (machine w)) offset byteCount);
    cbn [isSome]; unfold ret, panic.
  - apply steady_event. constructor.
  - apply halted_event; [constructor | reflexivity].
Qed.

Lemma contained_allocateString s w : contained (allocateString s) w.
Proof.
  unfold allocateString.
  apply contained_bind; [apply steady_refl|]. intros m w1 [= <- <-].
  apply contained_bind.
  { apply contained_Call. intros fname r H. now constructor. }
  intros res w2 _.
  apply contained_bind; [apply contained_first|]. intros ptr w3 _.
  unfold contained, bind, Write.
  destruct (Memory.Write (buffer (machine w3)) (uint32 ptr) s);
    cbn [negb]; unfold ret, panic.
  - split; [reflexivity|]. eexists. split; [reflexivity|].
    repeat constructor.
  - apply halted_event; [constructor | reflexivity].
Qed.

Lemma contained_ensureStatusCodeSuccess resultPpr errMsg w :
  contained (ensureStatusCodeSuccess resultPpr errMsg) w.
Proof.
  unfold ensureStatusCodeSuccess.
  apply contained_bind; [apply contained_ReadUint32Le|]. intros c w1 _.
  destruct (negb (c =? 0)); [apply contained_panic | apply contained_ret].
Qed.

Lemma contained_execStep stmt w : contained (execStep stmt) w.
Proof.
  unfold execStep.
  apply contained_bind; [apply steady_refl|]. intros m w1 [= <- <-].
  apply contained_bind.
  { apply contained_Call. intros fname r H. now constructor. }
  intros res w2 _.
  apply contained_bind; [apply contained_first|]. intros r0 w3 _.
  apply contained_ret.
Qed.

Lemma contained_readInt stmt columnIndex w :
  contained (readInt stmt columnIndex) w.
Proof.
  unfold readInt.
  apply contained_bind; [apply steady_refl|]. intros m w1 [= <- <-].
  apply contained_bind.
  { apply contained_Call. intros fname r H. now apply emit_columnInt. }
  intros res w2 _.
  apply contained_bind; [apply contained_first|]. intros r0 w3 _.
  apply contained_ret.
Qed.

Ltac enter_this :=
  apply contained_bind; [apply steady_refl|];
  let m := fresh "m" in let w := fresh "w" in intros m w [= <- <-].

Ltac enter_Call :=
  apply contained_bind;
  [apply contained_Call;
   let H := fresh in intros ? ? H; constructor; exact H
  | intros ? ? _].

Lemma contained_readText stmt columnIndex w :
  contained (readText stmt columnIndex) w.
Proof.
  unfold readText.
  enter_this.
  apply contained_bind.
  { apply contained_Call. intros fname r H. now apply emit_columnText. }
  intros _ w1 _.
  enter_this.
  apply contained_bind.
  { apply contained_Call. intros fname r H. now apply emit_getResultPtr. }
  intros textPtr w2 _.
  enter_this.
  apply contained_bind.
  { apply contained_Call. intros fname r H. now apply emit_getResultSize. }
  intros textSize w3 _.
  apply contained_bind; [apply contained_first|]. intros p0 w4 _.
  apply contained_bind; [apply contained_first|]. intros s0 w5 _.
  cbv beta iota zeta.
  apply contained_bind; [apply contained_Read|]. intros raw w6 _.
  apply contained_ret.
Qed.

Lemma contained_execSql query w : contained (execSql query) w.
Proof.
  unfold execSql.
  apply contained_bind; [apply contained_allocateString|].
  intros [queryPtr querySize] w1 _.
  enter_this. enter_Call.
  enter_this.
  apply contained_bind.
  { apply contained_Call. intros fname r H. now apply emit_getResultPtr. }
  intros res w3 _.
  apply contained_bind; [apply contained_first|]. intros r0 w4 _.
  apply contained_bind; [apply contained_ReadUint32Le|]. intros ptr w5 _.
  apply contained_bind; [apply contained_ReadUint32Le|]. intros size w6 _.
  apply contained_bind.
  { destruct (negb (size =? 0));
      [apply contained_Read | apply contained_ret]. }
  intros errMsg w7 _.
  apply contained_ensureStatusCodeSuccess.
Qed.

Lemma contained_execSelectUsers_prepare query w :
  contained (execSelectUsers_prepare query) w.
Proof.
  unfold execSelectUsers_prepare.
  apply contained_bind; [apply contained_allocateString|].
  intros [queryPtr querySize] w1 _.
  enter_this. enter_Call.
  enter_this.
  apply contained_bind.
  { apply contained_Call. intros fname r H. now apply emit_getResultPtr. }
  intros res w3 _.
  apply contained_bind; [apply contained_first|]. intros r0 w4 _.
  apply contained_bind; [apply contained_ensureStatusCodeSuccess|].
  intros _ w5 _.
  unfold contained, bind, ReadUint32Le.
  destruct (Memory.ReadUint32Le (buffer (machine w5))
              (uint32 (uint64 (r0 + 4)))) as [stmt|];
    cbn [isSome]; unfold ret, panic.
  - destruct (stmt =? 0).
    + apply halted_now, steady_event. constructor.
    + apply steady_event. constructor.
  - apply halted_event; [constructor | reflexivity].
Qed.

Lemma contained_execSelectUsers_loop fuel :
  forall stmt rc users w,
    contained (execSelectUsers_loop fuel stmt rc users) w.
Proof.
  induction fuel as [|fuel IH]; intros stmt rc users w.
  - apply steady_refl.
  - cbn [execSelectUsers_loop]. destruct (rc =? SQLITE_ROW).
    + apply contained_bind; [apply contained_readInt|]. intros i w1 _.
      apply contained_bind; [apply contained_readText|]. intros n w2 _.
      cbv zeta.
      apply contained_bind; [apply contained_execStep|]. intros rc' w3 _.
      apply IH.
    + apply contained_ret.
Qed.

Lemma contained_execSelectUsers fuel query w :
  contained (execSelectUsers fuel query) w.
Proof.
  unfold execSelectUsers.
  apply contained_bind; [apply contained_execSelectUsers_prepare|].
  intros stmt w1 _.
  apply contained_bind; [apply contained_execStep|]. intros rc w2 _.
  apply contained_execSelectUsers_loop.
Qed.

Lemma contained_newSqlModule_open w : contained newSqlModule_open w.
Proof.
  unfold newSqlModule_open.
  apply contained_bind; [apply contained_allocateString|].
  intros [dbNamePtr dbNameSize] w1 _.
  apply contained_bind; [apply contained_allocateString|].
  intros [fsNamePtr fsNameSize] w2 _.
  enter_this.
  apply contained_bind.
  { apply contained_Call. intros fname r H. now apply emit_open. }
  intros _ w3 _.
  enter_this.
  apply contained_bind.
  { apply contained_Call. intros fname r H. now apply emit_getResultPtr. }
  intros res w4 _.
  apply contained_bind; [apply contained_first|]. intros r0 w5 _.
  apply contained_bind; [apply contained_ensureStatusCodeSuccess|].
  intros _ w6 _.
  apply contained_ReadUint32Le.
Qed.

Lemma contained_perform op w : contained (perform op) w.
Proof.
  destruct op; cbn [perform];
    try (apply contained_bind; [|intros; apply contained_ret]).
  - apply contained_execSql.
  - apply contained_execSelectUsers.
  - apply contained_execStep.
  - apply contained_readInt.
  - apply contained_readText.
  - apply contained_allocateString.
  - apply contained_ensureStatusCodeSuccess.
Qed.

Lemma contained_performAll ops : forall w, contained (performAll ops) w.
Proof.
  induction ops as [|op ops IH]; intros w; cbn [performAll].
  - apply contained_ret.
  - apply contained_bind; [apply contained_perform|]. intros _ w1 _.
    apply IH.
Qed.

End Footprint.

Section FootprintFacts.

Context {G : Type} {RT : Runtime G}.
Implicit Types w : World G.

Lemma Emits_accessOk s ev : Emits s ev -> accessOk ev.
Proof. destruct 1; exact I || reflexivity. Qed.

Lemma Forall_removelast {A} (P : A -> Prop) l :
  Forall P l -> Forall P (removelast l).
Proof.
  induction 1 as [|x l Hx Hl IH]; [constructor|].
  cbn [removelast]. destruct l; [constructor|]. now constructor.
Qed.

Lemma steady_accesses w w' :
  steady w w' ->
  exists evs, trace w' = trace w ++ evs /\ Forall accessOk evs.
Proof.
  intros [_ (evs & T & F)]. exists evs. split; [exact T|].
  eapply Forall_impl; [|exact F]. apply Emits_accessOk.
Qed.

Lemma halted_accesses e w w' :
  halted e w w' ->
  exists evs,
    trace w' = trace w ++ evs /\
    Forall accessOk (removelast evs) /\
    (Forall accessOk evs \/ isMemoryError e = true).
Proof.
  intros [_ (evs & tail & T & F & Ht)].
  assert (Fa : Forall accessOk evs)
    by (eapply Forall_impl; [|exact F]; apply Emits_accessOk).
  exists (evs ++ tail). split; [exact T|].
  destruct Ht as [-> | (ev & -> & _ & He)].
  - rewrite app_nil_r. split; [now apply Forall_removelast | now left].
  - rewrite removelast_last. split; [exact Fa | now right].
Qed.

Lemma contained_accessesChecked {A} (m : M G A) w :
  contained m w -> accessesChecked w (m w).
Proof.
  unfold contained, accessesChecked. destruct (m w) as [a w' | e w' | w'].
  - intros H. apply steady_accesses in H as (evs & T & F).
    exists evs. split; [exact T|].
    split; [now apply Forall_removelast | now left].
  - intros H. apply halted_accesses in H as (evs & T & F & L).
    exists evs. split; [exact T|]. split; [exact F|].
    destruct L as [L | L]; [now left | right; eauto].
  - intros H. apply steady_accesses in H as (evs & T & F).
    exists evs. split; [exact T|].
    split; [now apply Forall_removelast | now left].
Qed.

Lemma newSqlModule_accessesChecked w : accessesChecked w (newSqlModule w).
Proof.
  unfold newSqlModule, bind at 1.
  destruct (InstantiateModule (machine w)) as [sqlite|].
  - unfold bind at 1, setSelf at 1. cbn [self machine trace].
    match goal with
    | |- accessesChecked _ (bind _ _ ?w1) =>
        pose proof (contained_accessesChecked _ _
                      (contained_newSqlModule_open w1)) as H;
        unfold bind at 1;
        destruct (newSqlModule_open w1) as [h w2 | e w2 | w2]
    end.
    + unfold bind, this, setSelf.
      destruct H as (evs & T & F & L). exists evs. split; [exact T|].
      split; [exact F|].
      destruct L as [L | (e' & w' & E & _)]; [now left | discriminate E].
    + destruct H as (evs & T & F & L). exists evs. split; [exact T|].
      split; [exact F|]. destruct L as [L | (e' & w' & [= -> ->] & L)];
        [now left | right; eauto].
    + destruct H as (evs & T & F & L). exists evs. split; [exact T|].
      split; [exact F|].
      destruct L as [L | (e' & w' & E & _)]; [now left | discriminate E].
  - exists []. cbn. rewrite app_nil_r. repeat split; auto.
Qed.

(** With the struct bound as [newSqlModule] binds it, the calls to the
    exec and prepare exports in the footprint carry the struct's handle
    first. *)
Lemma Emits_passes_handle (s : sqliteModule) f params r :
  bound s ->
  Emits s (EvCall f params r) ->
  f = "sqlite3_exec"%string \/ f = "sqlite3_prepare_v2"%string ->
  exists rest, params = dbHandle s :: rest.
Proof.
  intros (Bo & Be & Bp & Bs & Ba & Bpr & Bst & Bci & Bct) H Hf.
  unfold ExportedFunction in *.
  inversion H as [? ? ? E | ? ? ? ? ? ? E | ? ? ? ? E | ? ? ? ? E | ? ? E
                  | ? ? E | ? ? ? E | ? ? ? ? E | ? ? ? ? E | | | ];
    subst; try (eexists; reflexivity);
    match goal with
    | B : ?fld s = (if ?c then _ else _), E : ?fld s = Some _ |- _ =>
        rewrite B in E; destruct c; [injection E as <- | discriminate E]
    end;
    destruct Hf as [Hf | Hf]; discriminate Hf.
Qed.

End FootprintFacts.

(* ================================================================== *)
(** * The struct after construction *)

(** C10.  Once [newSqlModule] has returned, whatever operations follow
    (execute, query, step, column reads, string allocation, status
    check), run one after the other until they end or one panics, the
    struct is as [newSqlModule] left it: the same database handle and the
    same function references.  Every call they make to the exec or the
    prepare export passes that handle as its first argument.  No method
    changes the struct, whatever the world it runs in. *)
Theorem client_state_is_frozen {G} {RT : Runtime G}
    (w0 w : World G) (ops : list Operation) :
  newSqlModule w0 = Ok tt w ->
  let w' := after (performAll ops w) in
  self w' = self w /\
  (exists evs,
      trace w' = trace w ++ evs /\
      forall f params r,
        In (EvCall f params r) evs ->
        f = "sqlite3_exec"%string \/ f = "sqlite3_prepare_v2"%string ->
        exists rest, params = dbHandle (self w) :: rest) /\
  (forall op (w1 : World G), self (after (perform op w1)) = self w1).
Proof.
  intros H w'. apply newSqlModule_Ok_inv in H as (_ & _ & _ & _ & B & _).
  assert (Frozen : forall A (m : M G A) (w1 : World G),
             contained m w1 ->
             self (after (m w1)) = self w1 /\
             exists evs,
               trace (after (m w1)) = trace w1 ++ evs /\
               forall ev, In ev evs -> Emits (self w1) ev \/ Fatal ev).
  { intros A m w1 C. unfold contained in C.
    destruct (m w1) as [a w2 | e w2 | w2]; cbn [after].
    - destruct C as [S (evs & T & F)]. split; [exact S|].
      exists evs. split; [exact T|]. intros ev I. left.
      now apply (proj1 (Forall_forall _ _) F).
    - destruct C as [S (evs & tail & T & F & Ht)]. split; [exact S|].
      exists (evs ++ tail). split; [exact T|]. intros ev I.
      apply in_app_or in I as [I | I].
      + left. now apply (proj1 (Forall_forall _ _) F).
      + destruct Ht as [-> | (ev' & -> & Hf & _)]; [destruct I|].
        destruct I as [<- | []]. now right.
    - destruct C as [S (evs & T & F)]. split; [exact S|].
      exists evs. split; [exact T|]. intros ev I. left.
      now apply (proj1 (Forall_forall _ _) F). }
  split; [|split].
  - apply (Frozen _ _ _ (contained_performAll ops w)).
  - destruct (Frozen _ _ _ (contained_performAll ops w))
      as (_ & evs & T & E).
    exists evs. split; [exact T|]. intros f params r I Hf.
    destruct (E _ I) as [Em | Fa]; [|inversion Fa].
    now apply (Emits_passes_handle (self w) f params r).
  - intros op w1. apply (Frozen _ _ _ (contained_perform op w1)).
Qed.

Lemma client_state_is_frozen_witness :
  (* the open: envelope at 16, status 0, handle 7 *)
  let bufOpen := zeros 16 ++ envelope 0 7 0 ++ zeros 4 in
  (* a statement that fails: envelope at 16, status 1, no message *)
  let bufFail := zeros 16 ++ envelope 1 0 0 ++ zeros 4 in
  let w0 := boot (zeros 32)
              [reply [0]; reply [8]; replyMem [] bufOpen; reply [16];
               reply [0]; reply []; reply [16];
               reply [0]; replyMem [] bufFail; reply [16]] in
  let ops := [OpExecSql (str "CREATE"); OpExecSelectUsers 3 (str "SELECT")] in
  exists w,
    (let w' := after (performAll (RT := scripted allExports) ops w) in
     self w' = self w /\
     (exists evs,
         trace w' = trace w ++ evs /\
         forall f params r,
           In (EvCall f params r) evs ->
           f = "sqlite3_exec"%string \/ f = "sqlite3_prepare_v2"%string ->
           exists rest, params = dbHandle (self w) :: rest) /\
     (forall op (w1 : World (list Reply)),
         self (after (perform (RT := scripted allExports) op w1)) = self w1)) /\
    dbHandle (self w) = 7 /\
    trace (after (performAll (RT := scripted allExports) ops w)) =
    trace w ++
    [EvCall "allocate" [6; 0] (Some [0]); EvWrite 0 (str "CREATE") true;
     EvCall "sqlite3_exec" [7; 0; 6; 0; 0] (Some []);
     EvCall "get_result_ptr" [] (Some [16]);
     EvReadUint32Le 20 true; EvReadUint32Le 24 true; EvReadUint32Le 16 true;
     EvCall "allocate" [6; 0] (Some [0]); EvWrite 0 (str "SELECT") true;
     EvCall "sqlite3_prepare_v2" [7; 0; 6] (Some []);
     EvCall "get_result_ptr" [] (Some [16]);
     EvReadUint32Le 16 true].
Proof.
  intros bufOpen bufFail w0 ops. eexists. split; [|split].
  - eapply (client_state_is_frozen (RT := scripted allExports) w0 _ ops).
    vm_compute. reflexivity.
  - reflexivity.
  - vm_compute. reflexivity.
Defined.

(* ================================================================== *)
(** * Memory accesses out of bounds *)

(** C6.  A read of a range that extends past the memory is refused, and
    the client panics on the refusal.
    - [Memory.Read] answers nothing for such a range, and a read that is
      answered returns all the bytes asked for, from inside the memory.
    - [readText] panics with the memory-access failure when the range the
      guest announces for the text extends past the memory; the refused
      read is its last event.
    - [allocateString] panics likewise when the string does not fit at
      the address the allocator returned, and the memory is not changed.
    - The flag recorded with an access is the answer of the bounds
      check on the memory of that moment.
    - In every run of operations, and in [newSqlModule], each memory
      access before the last event was in bounds, and so was the last one
      unless the run ended in the panic of a refused access. *)
Theorem out_of_bounds_is_fatal {G} {RT : Runtime G} :
  (forall buf p n,
      Memory.Size buf < p + n -> Memory.Read buf p n = None) /\
  (forall buf p n bs,
      0 <= p -> 0 <= n ->
      Memory.Read buf p n = Some bs ->
      p + n <= Memory.Size buf /\ len bs = n) /\
  (forall stmt columnIndex (w w1 w2 w3 : World G) r p rest s rest',
      Call (columnText (self w)) [uint64 stmt; uint64 columnIndex] w
      = Ok (Some r) w1 ->
      Call (getResultPtr (self w1)) [] w1 = Ok (Some (p :: rest)) w2 ->
      Call (getResultSize (self w2)) [] w2 = Ok (Some (s :: rest')) w3 ->
      Memory.Size (buffer (machine w3)) < uint32 p + uint32 s ->
      readText stmt columnIndex w =
      Panic (MemoryAccessError "failed to read text(size=%d) at %d")
        (record (EvRead (uint32 p) (uint32 s) false) w3)) /\
  (forall s (w w1 : World G) ptr rest,
      Call (alloc (self w)) [uint64 (len s); 0] w
      = Ok (Some (ptr :: rest)) w1 ->
      Memory.Size (buffer (machine w1)) < uint32 ptr + len s ->
      allocateString s w =
      Panic (MemoryAccessError "failed to write name")
        (record (EvWrite (uint32 ptr) s false) w1)) /\
  (forall offset n v (w : World G),
      let buf := buffer (machine w) in
      trace (after (Read offset n w)) =
      trace w ++ [EvRead offset n (Memory.hasSize buf offset n)] /\
      trace (after (ReadUint32Le offset w)) =
      trace w ++ [EvReadUint32Le offset (Memory.hasSize buf offset 4)] /\
      trace (after (Write offset v w)) =
      trace w ++ [EvWrite offset v (Memory.hasSize buf offset (len v))]) /\
  (forall ops (w : World G), accessesChecked w (performAll ops w)) /\
  (forall w : World G, accessesChecked w (newSqlModule w)).
Proof.
  split; [|split; [|split; [|split; [|split; [|split]]]]].
  - intros. now apply MemoryFacts.Read_None.
  - intros buf p n bs Hp Hn H. split.
    + now apply MemoryFacts.Read_Some in H.
    + now apply (MemoryFacts.Read_length buf p n bs).
  - intros stmt columnIndex w w1 w2 w3 r p rest s rest' Hc Hp Hs Hsz.
    unfold readText. run_with Hc. run_with Hp. run_with Hs.
    unfold Read. rewrite (MemoryFacts.Read_None _ _ _ Hsz). reflexivity.
  - intros s w w1 ptr rest Hc Hsz.
    unfold allocateString. run_with Hc.
    unfold Write. rewrite (MemoryFacts.Write_None _ _ _ Hsz). reflexivity.
  - intros offset n v w buf.
    unfold Read, ReadUint32Le, Write, Memory.Read, Memory.ReadUint32Le,
      Memory.Write. fold buf.
    destruct (Memory.hasSize buf offset n),
      (Memory.hasSize buf offset 4),
      (Memory.hasSize buf offset (len v)); repeat split; reflexivity.
  - intros ops w. apply contained_accessesChecked, contained_performAll.
  - apply newSqlModule_accessesChecked.
Qed.

Lemma out_of_bounds_is_fatal_witness :
  (* the guest announces a text of 4 bytes at 14 in a memory of 16 *)
  let w := opened 7 (zeros 16) [reply []; reply [14]; reply [4]] in
  (* the allocator returns 12 for a string of 8 bytes *)
  let a := opened 7 (zeros 16) [reply [12]] in
  Memory.Read (zeros 16) 14 4 = None /\
  (6 + 4 <= Memory.Size (zeros 16) /\ len (zeros 4) = 4) /\
  readText (RT := scripted allExports) 5 1 w =
  Panic (MemoryAccessError "failed to read text(size=%d) at %d")
    (record (EvRead (uint32 14) (uint32 4) false)
       (mkWorld (client 7) (mkMachine (zeros 16) [])
          [EvCall "sqlite3_column_text" [5; 1] (Some []);
           EvCall "get_result_ptr" [] (Some [14]);
           EvCall "get_result_size" [] (Some [4])])) /\
  allocateString (RT := scripted allExports) (str ":memory:") a =
  Panic (MemoryAccessError "failed to write name")
    (record (EvWrite (uint32 12) (str ":memory:") false)
       (mkWorld (client 7) (mkMachine (zeros 16) [])
          [EvCall "allocate" [8; 0] (Some [12])])).
Proof.
  intros w a.
  destruct (out_of_bounds_is_fatal (RT := scripted allExports))
    as (Hnone & Hall & Htext & Halloc & _ & _ & _).
  split; [|split; [|split]].
  - apply Hnone. vm_compute. reflexivity.
  - apply (Hall (zeros 16) 6 4 (zeros 4)).
    + lia.
    + lia.
    + vm_compute. reflexivity.
  - eapply (Htext 5 1 w).
    + vm_compute. reflexivity.
    + vm_compute. reflexivity.
    + vm_compute. reflexivity.
    + vm_compute. reflexivity.
  - eapply (Halloc (str ":memory:") a).
    + vm_compute. reflexivity.
    + vm_compute. reflexivity.
Defined.

(* ================================================================== *)
(** * The program, run on a scripted guest

    The guest plays the engine for the three statements of [main]: a
    memory of 128 bytes, strings allocated at 0, the result envelope at
    100, the text of a column at 112. *)

Example main_prints_three_users :
  let slot status aux size tail :=
    zeros 100 ++ envelope status aux size ++ tail in
  let call_text t :=
    [replyMem [] (slot 0 0 0 (t ++ zeros (16 - List.length t)));
     reply [112]; reply [len t]] in
  let row i (t : string) := [reply [100]; reply [i]] ++ call_text (str t) in
  let script :=
    (* newSqlModule: two strings, open, the envelope with handle 1 *)
    [reply [0]; reply [0]; replyMem [] (slot 0 1 0 (zeros 16)); reply [100]]
    (* CREATE TABLE, INSERT: string, exec, envelope with status 0 *)
    ++ [reply [0]; replyMem [] (slot 0 0 0 (zeros 16)); reply [100]]
    ++ [reply [0]; replyMem [] (slot 0 0 0 (zeros 16)); reply [100]]
    (* SELECT: string, prepare, the envelope with statement 9, the rows *)
    ++ [reply [0]; replyMem [] (slot 0 9 0 (zeros 16)); reply [100]]
    ++ row 0 "go"%string ++ row 1 "zig"%string ++ row 2 "whatever"%string
    ++ [reply [101]] in
  exists w',
    main (RT := scripted allExports) 4 (boot (zeros 128) script) =
    Ok [mkUser 0 (str "go"); mkUser 1 (str "zig"); mkUser 2 (str "whatever")]
       w' /\
    dbHandle (self w') = 1.
Proof.
  intros slot call_text row script. eexists. split.
  - vm_compute. reflexivity.
  - reflexivity.
Qed.

(* ================================================================== *)
(** * Further properties of the methods *)

(** X1.  [readText] returns the bytes of the range announced by the two
    accessors: the address is the value returned by [get_result_ptr]
    itself and the length the value returned by [get_result_size], both
    cut to 32 bits.  With the range inside the memory the result is
    exactly those bytes, as many as the length says (none for a length of
    zero), after three calls and one read. *)
Theorem readText_returns_range {G} {RT : Runtime G}
    (stmt columnIndex : Z) (w w1 w2 w3 : World G)
    (r rest rest' : list Z) (p s : Z) :
  Call (columnText (self w)) [uint64 stmt; uint64 columnIndex] w
  = Ok (Some r) w1 ->
  Call (getResultPtr (self w1)) [] w1 = Ok (Some (p :: rest)) w2 ->
  Call (getResultSize (self w2)) [] w2 = Ok (Some (s :: rest')) w3 ->
  uint32 p + uint32 s <= Memory.Size (buffer (machine w3)) ->
  let text := Memory.slice (buffer (machine w3)) (uint32 p) (uint32 s) in
  readText stmt columnIndex w =
  Ok text (record (EvRead (uint32 p) (uint32 s) true) w3) /\
  len text = uint32 s /\
  (uint32 s = 0 -> text = []).
Proof.
  intros Hc Hp Hs Hsz text.
  assert (R : Memory.Read (buffer (machine w3)) (uint32 p) (uint32 s)
              = Some text).
  { unfold Memory.Read.
    now rewrite (proj2 (MemoryFacts.hasSize_iff _ _ _) Hsz). }
  pose proof (uint32_range p) as Rp. pose proof (uint32_range s) as Rs.
  assert (L : len text = uint32 s)
    by (apply (MemoryFacts.Read_length _ _ _ _ (proj1 Rp) (proj1 Rs) R)).
  split; [|split].
  - unfold readText. run_with Hc. run_with Hp. run_with Hs.
    unfold Read. rewrite R. reflexivity.
  - exact L.
  - intros Z0. rewrite Z0 in L. unfold len in L.
    destruct text; [reflexivity | simpl in L; lia].
Qed.

Lemma readText_returns_range_witness :
  let buf := zeros 8 ++ str "zig" ++ zeros 5 in
  let w := opened 7 (zeros 16) [replyMem [] buf; reply [8]; reply [3]] in
  let w3 : World (list Reply) :=
    mkWorld (client 7) (mkMachine buf [])
      [EvCall "sqlite3_column_text" [5; 1] (Some []);
       EvCall "get_result_ptr" [] (Some [8]);
       EvCall "get_result_size" [] (Some [3])] in
  let text := Memory.slice (buffer (machine w3)) (uint32 8) (uint32 3) in
  (readText (RT := scripted allExports) 5 1 w =
   Ok text (record (EvRead (uint32 8) (uint32 3) true) w3) /\
   len text = uint32 3 /\
   (uint32 3 = 0 -> text = [])) /\
  text = str "zig".
Proof.
  intros buf w w3 text. split; [|reflexivity].
  eapply (readText_returns_range (RT := scripted allExports) 5 1 w).
  - vm_compute. reflexivity.
  - vm_compute. reflexivity.
  - vm_compute. reflexivity.
  - vm_compute. discriminate.
Defined.

(** X2.  Negative integers come back as they are: when the integer-column
    export returns the 64-bit two's complement encoding of [v], [readInt]
    returns [v], for every [v] of the range of a signed 64-bit integer. *)
Theorem readInt_signed_roundtrip {G} {RT : Runtime G}
    (stmt columnIndex v : Z) (w : World G) (f : string) (rest : list Z)
    (m' : Machine G) :
  - 2 ^ 63 <= v < 2 ^ 63 ->
  columnInt (self w) = Some f ->
  invoke f [uint64 stmt; uint64 columnIndex] (machine w)
  = (Some (uint64 v :: rest), m') ->
  exists w', readInt stmt columnIndex w = Ok v w'.
Proof.
  intros Hv Hf Hi.
  assert (E : int (uint64 (uint64 v)) = v).
  { rewrite (uint64_small (uint64 v)) by apply uint64_range.
    unfold int, uint64. rewrite Zplus_mod_idemp_l.
    rewrite Z.mod_small; [lia|].
    change (2 ^ 64) with (2 ^ 63 + 2 ^ 63). lia. }
  eexists.
  unfold readInt, orPanic, bind, this, ret, first. cbv beta iota zeta.
  rewrite Hf, (Call_run _ _ _ _ _ Hi). cbn [option_map map].
  unfold ret. rewrite E. reflexivity.
Qed.

Lemma readInt_signed_roundtrip_witness :
  let w := opened 7 (zeros 8) [reply [uint64 (-42)]] in
  exists w', readInt (RT := scripted allExports) 5 0 w = Ok (-42) w'.
Proof.
  intros w.
  apply (readInt_signed_roundtrip (RT := scripted allExports)
           5 0 (-42) w "sqlite3_column_int64" [] (mkMachine (zeros 8) [])).
  - split; [vm_compute; discriminate | reflexivity].
  - reflexivity.
  - reflexivity.
Defined.

(** [execSql] after its three calls: what is left is the decoding of the
    envelope at the address [get_result_ptr] returned. *)
Lemma execSql_after_calls {G} {RT : Runtime G}
    (query : gostring) (w w1 w2 w3 : World G)
    (queryPtr querySize base : Z) (r rest : list Z) :
  allocateString query w = Ok (queryPtr, querySize) w1 ->
  Call (exec (self w1)) [dbHandle (self w1); queryPtr; querySize; 0; 0] w1
  = Ok (Some r) w2 ->
  Call (getResultPtr (self w2)) [] w2 = Ok (Some (base :: rest)) w3 ->
  execSql query w =
  (errMsgPtr <- orPanic (ReadUint32Le (uint32 (uint32 base + 4)))
                  (MemoryAccessError "cannot read err msg ptr") ;;
   errMsgSize <- orPanic (ReadUint32Le (uint32 (uint32 base + 8)))
                   (MemoryAccessError "cannot read err msg size") ;;
   errMsg <- (if negb (errMsgSize =? 0)
              then orPanic (Read errMsgPtr errMsgSize)
                     (MemoryAccessError "cannot read err msg")
              else ret []) ;;
   ensureStatusCodeSuccess (uint32 base) errMsg) w3.
Proof.
  intros Ha He Hg. rewrite <- !uint32_add.
  unfold execSql. run_with Ha. run_with He. run_with Hg. reflexivity.
Qed.

(** X3.  A statement whose status is zero succeeds, and its error message
    is still fetched first: with a non-zero length field the bytes are
    read and dropped, and if their range is not inside the memory
    [execSql] panics on the refused read although the engine reported
    success. *)
Theorem execSql_status_zero {G} {RT : Runtime G}
    (query : gostring) (w w1 w2 w3 : World G)
    (queryPtr querySize base : Z) (r rest : list Z)
    (errMsgPtr errMsgSize : Z) :
  allocateString query w = Ok (queryPtr, querySize) w1 ->
  Call (exec (self w1)) [dbHandle (self w1); queryPtr; querySize; 0; 0] w1
  = Ok (Some r) w2 ->
  Call (getResultPtr (self w2)) [] w2 = Ok (Some (base :: rest)) w3 ->
  Memory.ReadUint32Le (buffer (machine w3)) (uint32 base) = Some 0 ->
  Memory.ReadUint32Le (buffer (machine w3)) (uint32 (uint32 base + 4))
  = Some errMsgPtr ->
  Memory.ReadUint32Le (buffer (machine w3)) (uint32 (uint32 base + 8))
  = Some errMsgSize ->
  (errMsgSize = 0 ->
   execSql query w =
   Ok tt
     (mkWorld (self w3) (machine w3)
        (trace w3 ++ [EvReadUint32Le (uint32 (uint32 base + 4)) true;
                      EvReadUint32Le (uint32 (uint32 base + 8)) true;
                      EvReadUint32Le (uint32 base) true]))) /\
  (errMsgSize <> 0 ->
   errMsgPtr + errMsgSize <= Memory.Size (buffer (machine w3)) ->
   execSql query w =
   Ok tt
     (mkWorld (self w3) (machine w3)
        (trace w3 ++ [EvReadUint32Le (uint32 (uint32 base + 4)) true;
                      EvReadUint32Le (uint32 (uint32 base + 8)) true;
                      EvRead errMsgPtr errMsgSize true;
                      EvReadUint32Le (uint32 base) true]))) /\
  (errMsgSize <> 0 ->
   Memory.Size (buffer (machine w3)) < errMsgPtr + errMsgSize ->
   execSql query w =
   Panic (MemoryAccessError "cannot read err msg")
     (mkWorld (self w3) (machine w3)
        (trace w3 ++ [EvReadUint32Le (uint32 (uint32 base + 4)) true;
                      EvReadUint32Le (uint32 (uint32 base + 8)) true;
                      EvRead errMsgPtr errMsgSize false]))).
Proof.
  intros Ha He Hg Hs Hp Hn.
  rewrite (execSql_after_calls _ _ _ _ _ _ _ _ _ _ Ha He Hg).
  erewrite bind_Ok by (apply ReadUint32Le_run; exact Hp).
  erewrite bind_Ok by (apply ReadUint32Le_run; exact Hn).
  split; [|split].
  - intros ->. change (negb (0 =? 0)) with false. cbv beta iota.
    unfold bind at 1, ret at 1.
    rewrite ensureStatusCodeSuccess_run. unfold record.
    cbn [buffer machine self trace]. rewrite Hs.
    change (0 =? 0) with true. cbv beta iota.
    rewrite snoc3. reflexivity.
  - intros Hsz Hin.
    destruct (Z.eqb_spec errMsgSize 0) as [E | _]; [contradiction|].
    cbn [negb].
    assert (R : Memory.Read (buffer (machine w3)) errMsgPtr errMsgSize
                = Some (Memory.slice (buffer (machine w3))
                          errMsgPtr errMsgSize)).
    { unfold Memory.Read.
      now rewrite (proj2 (MemoryFacts.hasSize_iff _ _ _) Hin). }
    erewrite bind_Ok by (apply Read_run; exact R).
    rewrite ensureStatusCodeSuccess_run. unfold record.
    cbn [buffer machine self trace]. rewrite Hs.
    change (0 =? 0) with true. cbv beta iota.
    rewrite snoc3, <- app_assoc. reflexivity.
  - intros Hsz Hout.
    destruct (Z.eqb_spec errMsgSize 0) as [E | _]; [contradiction|].
    cbn [negb].
    assert (R : Memory.Read (buffer (machine w3)) errMsgPtr errMsgSize = None)
      by now apply MemoryFacts.Read_None.
    erewrite bind_Panic by (apply Read_fail; exact R).
    unfold record. cbn [self machine trace]. rewrite snoc3. reflexivity.
Qed.

Lemma execSql_status_zero_witness :
  (* status 0 with a message of 3 bytes at 32 *)
  let buf := zeros 16 ++ envelope 0 32 3 ++ zeros 4 ++ str "bad" ++ zeros 9 in
  let w := opened 7 (zeros 48) [reply [0]; replyMem [] buf; reply [16]] in
  (* status 0 with a message announced at 46, 3 bytes, in a memory of 48 *)
  let far := zeros 16 ++ envelope 0 46 3 ++ zeros 20 in
  let v := opened 7 (zeros 48) [reply [0]; replyMem [] far; reply [16]] in
  (exists w3,
      execSql (RT := scripted allExports) (str "DROP x") w =
      Ok tt
        (mkWorld (self w3) (machine w3)
           (trace w3 ++ [EvReadUint32Le (uint32 (uint32 16 + 4)) true;
                         EvReadUint32Le (uint32 (uint32 16 + 8)) true;
                         EvRead 32 3 true;
                         EvReadUint32Le (uint32 16) true])) /\
      buffer (machine w3) = buf) /\
  (exists w3,
      execSql (RT := scripted allExports) (str "DROP x") v =
      Panic (MemoryAccessError "cannot read err msg")
        (mkWorld (self w3) (machine w3)
           (trace w3 ++ [EvReadUint32Le (uint32 (uint32 16 + 4)) true;
                         EvReadUint32Le (uint32 (uint32 16 + 8)) true;
                         EvRead 46 3 false])) /\
      buffer (machine w3) = far).
Proof.
  intros buf w far v. split.
  - eexists. split.
    + eapply (execSql_status_zero (RT := scripted allExports)
                (str "DROP x") w _ _ _ 0 6 16 [] [] 32 3).
      * vm_compute. reflexivity.
      * vm_compute. reflexivity.
      * vm_compute. reflexivity.
      * vm_compute. reflexivity.
      * vm_compute. reflexivity.
      * vm_compute. reflexivity.
      * discriminate.
      * vm_compute. discriminate.
    + reflexivity.
  - eexists. split.
    + eapply (execSql_status_zero (RT := scripted allExports)
                (str "DROP x") v _ _ _ 0 6 16 [] [] 46 3).
      * vm_compute. reflexivity.
      * vm_compute. reflexivity.
      * vm_compute. reflexivity.
      * vm_compute. reflexivity.
      * vm_compute. reflexivity.
      * vm_compute. reflexivity.
      * discriminate.
      * vm_compute. reflexivity.
    + reflexivity.
Defined.

Lemma ReadUint32Le_refused {G} offset e (w : World G) :
  Memory.Size (buffer (machine w)) < offset + 4 ->
  orPanic (ReadUint32Le offset) e w
  = Panic e (record (EvReadUint32Le offset false) w).
Proof.
  intros H. unfold orPanic, bind, ReadUint32Le, Memory.ReadUint32Le,
    Memory.hasSize.
  destruct (Z.leb_spec (offset + 4) (Memory.Size (buffer (machine w))));
    [lia | reflexivity].
Qed.

Lemma ReadUint32Le_granted {G} offset e (w : World G) :
  offset + 4 <= Memory.Size (buffer (machine w)) ->
  exists v,
    Memory.ReadUint32Le (buffer (machine w)) offset = Some v /\
    orPanic (ReadUint32Le offset) e w
    = Ok v (record (EvReadUint32Le offset true) w).
Proof.
  intros H. eexists. split.
  - unfold Memory.ReadUint32Le.
    rewrite (proj2 (MemoryFacts.hasSize_iff _ _ _) H). reflexivity.
  - apply ReadUint32Le_run. unfold Memory.ReadUint32Le.
    rewrite (proj2 (MemoryFacts.hasSize_iff _ _ _) H). reflexivity.
Qed.

(** X4.  [execSql] needs the twelve bytes of the envelope inside the
    memory, whatever the status: it reads the fields at offsets 4 and 8
    before it looks at the status, and panics on the first of the two
    that is not inside the memory.  The status is not read in either
    case. *)
Theorem execSql_envelope_out_of_bounds {G} {RT : Runtime G}
    (query : gostring) (w w1 w2 w3 : World G)
    (queryPtr querySize base : Z) (r rest : list Z) :
  allocateString query w = Ok (queryPtr, querySize) w1 ->
  Call (exec (self w1)) [dbHandle (self w1); queryPtr; querySize; 0; 0] w1
  = Ok (Some r) w2 ->
  Call (getResultPtr (self w2)) [] w2 = Ok (Some (base :: rest)) w3 ->
  let size := Memory.Size (buffer (machine w3)) in
  (size < uint32 (uint32 base + 4) + 4 ->
   execSql query w =
   Panic (MemoryAccessError "cannot read err msg ptr")
     (record (EvReadUint32Le (uint32 (uint32 base + 4)) false) w3)) /\
  (uint32 (uint32 base + 4) + 4 <= size ->
   size < uint32 (uint32 base + 8) + 4 ->
   execSql query w =
   Panic (MemoryAccessError "cannot read err msg size")
     (record (EvReadUint32Le (uint32 (uint32 base + 8)) false)
        (record (EvReadUint32Le (uint32 (uint32 base + 4)) true) w3))).
Proof.
  intros Ha He Hg size.
  rewrite (execSql_after_calls _ _ _ _ _ _ _ _ _ _ Ha He Hg).
  split.
  - intros H. apply bind_Panic. now apply ReadUint32Le_refused.
  - intros H4 H8.
    destruct (ReadUint32Le_granted (uint32 (uint32 base + 4))
                (MemoryAccessError "cannot read err msg ptr") w3 H4)
      as (v & _ & R).
    rewrite (bind_Ok _ _ _ _ _ R).
    apply bind_Panic. now apply ReadUint32Le_refused.
Qed.

Lemma execSql_envelope_out_of_bounds_witness :
  (* the envelope announced at 40 in a memory of 48: the field at
     offset 8 is at 48 *)
  let w := opened 7 (zeros 48) [reply [0]; reply []; reply [40]] in
  (* the envelope announced at 46: the field at offset 4 is at 50 *)
  let v := opened 7 (zeros 48) [reply [0]; reply []; reply [46]] in
  (exists w3,
      execSql (RT := scripted allExports) (str "DROP x") w =
      Panic (MemoryAccessError "cannot read err msg size")
        (record (EvReadUint32Le (uint32 (uint32 40 + 8)) false)
           (record (EvReadUint32Le (uint32 (uint32 40 + 4)) true) w3))) /\
  (exists w3,
      execSql (RT := scripted allExports) (str "DROP x") v =
      Panic (MemoryAccessError "cannot read err msg ptr")
        (record (EvReadUint32Le (uint32 (uint32 46 + 4)) false) w3)).
Proof.
  intros w v. split.
  - eexists.
    eapply (execSql_envelope_out_of_bounds (RT := scripted allExports)
              (str "DROP x") w _ _ _ 0 6 40 [] []).
    + vm_compute. reflexivity.
    + vm_compute. reflexivity.
    + vm_compute. reflexivity.
    + vm_compute. discriminate.
    + vm_compute. reflexivity.
  - eexists.
    eapply (execSql_envelope_out_of_bounds (RT := scripted allExports)
              (str "DROP x") v _ _ _ 0 6 46 [] []).
    + vm_compute. reflexivity.
    + vm_compute. reflexivity.
    + vm_compute. reflexivity.
    + vm_compute. reflexivity.
Defined.

Lemma snoc2' {A} (l : list A) a b : (l ++ [a]) ++ [b] = l ++ [a; b].
Proof. now rewrite <- app_assoc. Qed.

(** A write leaves the bytes outside its range as they were. *)
Lemma Write_elsewhere buf a v buf' o n :
  Memory.Write buf a v = Some buf' ->
  0 <= a -> 0 <= o -> 0 <= n ->
  o + n <= a \/ a + len v <= o ->
  Memory.Read buf' o n = Memory.Read buf o n.
Proof.
  intros W Ha Ho Hn Hd.
  pose proof (MemoryFacts.Write_Size _ _ _ _ Ha W) as HS.
  apply MemoryFacts.Write_Some in W as [B ->].
  unfold Memory.Read, Memory.hasSize. rewrite HS.
  destruct (o + n <=? Memory.Size buf); [|reflexivity].
  f_equal. unfold Memory.slice, Memory.Size, len in *.
  replace (Z.to_nat (a + Z.of_nat (List.length v)))
    with (Z.to_nat a + List.length v)%nat by lia.
  assert (LA : List.length (firstn (Z.to_nat a) buf) = Z.to_nat a)
    by (rewrite length_firstn; lia).
  destruct Hd as [Hd | Hd].
  - rewrite skipn_app, LA.
    replace (Z.to_nat o - Z.to_nat a)%nat with 0%nat by lia.
    cbn [skipn]. rewrite firstn_app, length_skipn, LA.
    replace (Z.to_nat n - (Z.to_nat a - Z.to_nat o))%nat with 0%nat by lia.
    cbn [firstn]. rewrite app_nil_r.
    rewrite skipn_firstn_comm, firstn_firstn.
    f_equal. lia.
  - rewrite skipn_app, LA.
    rewrite (skipn_all2 (firstn (Z.to_nat a) buf)) by lia.
    cbn [app]. rewrite skipn_app.
    rewrite (skipn_all2 v) by lia. cbn [app].
    rewrite skipn_skipn. do 2 f_equal. lia.
Qed.

(** X5.  [allocateString] succeeds exactly when the allocator export is
    bound, its call returns at least one value, and the string fits in
    the memory at that value cut to 32 bits.  It then returns the value
    as the pointer, uncut, with the length of the string, and has asked
    the allocator for exactly that many bytes. *)
Theorem allocateString_succeeds_iff {G} {RT : Runtime G}
    (s : gostring) (w : World G) :
  (forall f r0 vals m',
      alloc (self w) = Some f ->
      invoke f [uint64 (len s); 0] (machine w) = (Some (r0 :: vals), m') ->
      uint32 r0 + len s <= Memory.Size (buffer m') ->
      exists buf',
        Memory.Write (buffer m') (uint32 r0) s = Some buf' /\
        allocateString s w =
        Ok (uint64 r0, uint64 (len s))
           (mkWorld (self w) (mkMachine buf' (guest m'))
              (trace w ++ [EvCall f [uint64 (len s); 0]
                             (Some (uint64 r0 :: map uint64 vals));
                           EvWrite (uint32 r0) s true]))) /\
  (forall p w',
      allocateString s w = Ok p w' ->
      exists f r0 vals m',
        alloc (self w) = Some f /\
        invoke f [uint64 (len s); 0] (machine w) = (Some (r0 :: vals), m') /\
        uint32 r0 + len s <= Memory.Size (buffer m') /\
        p = (uint64 r0, uint64 (len s))).
Proof.
  split.
  - intros f r0 vals m' Hf Hi Hfit.
    assert (W : exists buf',
               Memory.Write (buffer m') (uint32 (uint64 r0)) s = Some buf').
    { unfold Memory.Write. rewrite uint32_uint64.
      rewrite (proj2 (MemoryFacts.hasSize_iff _ _ _) Hfit). eauto. }
    destruct W as [buf' W]. exists buf'. split.
    + now rewrite uint32_uint64 in W.
    + unfold allocateString. expose. rewrite Hf. unfold Function.
      rewrite (Call_run _ _ _ _ _ Hi).
      cbn [option_map map]. expose. unfold Write.
      cbn [buffer machine self trace]. rewrite W. cbn [negb].
      rewrite uint32_uint64, snoc2'. reflexivity.
  - intros [ptr size] w' H.
    apply allocateString_Ok_inv in H
      as (f & r0 & rest & m' & buf' & Hf & Hi & Hr & Hw & -> & _).
    destruct r0 as [|x vals]; [discriminate|]. injection Hr as <- _.
    exists f, x, vals, m'. split; [exact Hf|]. split; [exact Hi|].
    split; [|reflexivity].
    apply MemoryFacts.Write_Some in Hw as [B _].
    now rewrite uint32_uint64 in B.
Qed.

Lemma allocateString_succeeds_iff_witness :
  (* the allocator returns 2^32 + 4: the string is written at 4 *)
  let w := opened 7 (zeros 16) [reply [2 ^ 32 + 4]] in
  (exists buf',
      Memory.Write (zeros 16) (uint32 (2 ^ 32 + 4)) (str "go") = Some buf' /\
      allocateString (RT := scripted allExports) (str "go") w =
      Ok (uint64 (2 ^ 32 + 4), uint64 (len (str "go")))
         (mkWorld (self w) (mkMachine buf' [])
            (trace w ++ [EvCall "allocate" [uint64 (len (str "go")); 0]
                           (Some (uint64 (2 ^ 32 + 4) :: map uint64 []));
                         EvWrite (uint32 (2 ^ 32 + 4)) (str "go") true]))) /\
  (exists f r0 vals m',
      alloc (self w) = Some f /\
      invoke (Runtime := scripted allExports) f
        [uint64 (len (str "go")); 0] (machine w) = (Some (r0 :: vals), m') /\
      uint32 r0 + len (str "go") <= Memory.Size (buffer m') /\
      (2 ^ 32 + 4, 2) = (uint64 r0, uint64 (len (str "go")))).
Proof.
  intros w.
  destruct (allocateString_succeeds_iff (RT := scripted allExports)
              (str "go") w) as [Hrun Hinv].
  split.
  - apply (Hrun "allocate"%string (2 ^ 32 + 4) [] (mkMachine (zeros 16) [])).
    + reflexivity.
    + reflexivity.
    + vm_compute. discriminate.
  - eapply Hinv. vm_compute. reflexivity.
Defined.

(** X6.  The write of [allocateString] is the only change it makes to
    what the allocator left: the guest state and the size of the memory
    are the same, every range that does not overlap the string reads as
    before, and an empty string changes nothing at all. *)
Theorem allocateString_frame {G} {RT : Runtime G}
    (s : gostring) (w w1 w' : World G) (ptr ptr' size : Z) (rest : list Z) :
  Call (alloc (self w)) [uint64 (len s); 0] w = Ok (Some (ptr :: rest)) w1 ->
  allocateString s w = Ok (ptr', size) w' ->
  ptr' = ptr /\
  self w' = self w /\
  guest (machine w') = guest (machine w1) /\
  Memory.Size (buffer (machine w')) = Memory.Size (buffer (machine w1)) /\
  (forall o n,
      0 <= o -> 0 <= n ->
      o + n <= uint32 ptr \/ uint32 ptr + len s <= o ->
      Memory.Read (buffer (machine w')) o n
      = Memory.Read (buffer (machine w1)) o n) /\
  (s = [] -> buffer (machine w') = buffer (machine w1)).
Proof.
  intros Hc H.
  apply allocateString_Ok_inv in H
    as (f & r0 & rest0 & m' & buf' & Hf & Hi & Hr & Hw & _ & ->).
  apply Call_Ok_inv in Hc as (f1 & r1 & m1 & Hf1 & Hi1 & Hr1 & ->).
  rewrite Hf in Hf1. injection Hf1 as <-.
  rewrite Hi in Hi1. injection Hi1 as <- <-.
  cbn [option_map] in Hr1. rewrite Hr in Hr1.
  assert (E : ptr' = ptr) by congruence. subst ptr'. clear Hr1.
  cbn [self machine buffer guest].
  pose proof (uint32_range ptr) as Rp.
  split; [reflexivity|]. split; [reflexivity|]. split; [reflexivity|].
  split; [|split].
  - now apply (MemoryFacts.Write_Size _ _ _ _ (proj1 Rp) Hw).
  - intros o n Ho Hn Hd.
    now apply (Write_elsewhere _ _ _ _ _ _ Hw (proj1 Rp) Ho Hn Hd).
  - intros ->. apply MemoryFacts.Write_Some in Hw as [B ->].
    unfold len in *. cbn [List.length app] in *.
    rewrite Z.add_0_r. apply firstn_skipn.
Qed.

Lemma allocateString_frame_witness :
  let buf := str "0123456789abcdef" in
  let w := opened 7 buf [reply [4]] in
  let w1 : World (list Reply) :=
    mkWorld (client 7) (mkMachine buf [])
      [EvCall "allocate" [2; 0] (Some [4])] in
  let w' : World (list Reply) :=
    mkWorld (client 7) (mkMachine (str "0123go6789abcdef") [])
      [EvCall "allocate" [2; 0] (Some [4]); EvWrite 4 (str "go") true] in
  4 = 4 /\
  self w' = self w /\
  guest (machine w') = guest (machine w1) /\
  Memory.Size (buffer (machine w')) = Memory.Size (buffer (machine w1)) /\
  (forall o n,
      0 <= o -> 0 <= n ->
      o + n <= uint32 4 \/ uint32 4 + len (str "go") <= o ->
      Memory.Read (buffer (machine w')) o n
      = Memory.Read (buffer (machine w1)) o n) /\
  (str "go" = [] -> buffer (machine w') = buffer (machine w1)).
Proof.
  intros buf w w1 w'.
  apply (allocateString_frame (RT := scripted allExports)
           (str "go") w w1 w' 4 4 2 []).
  - vm_compute. reflexivity.
  - vm_compute. reflexivity.
Defined.

(* ================================================================== *)
(** * The interactions of a query *)

Section RowProtocol.

Context {G : Type} {RT : Runtime G}.
Implicit Types w : World G.

Lemma Call_Some_inv f params w res w' :
  orPanic (Call f params) (CallError "") w = Ok res w' ->
  exists fname m',
    f = Some fname /\
    w' = mkWorld (self w) m' (trace w ++ [EvCall fname params (Some res)]).
Proof.
  intros H. apply orPanic_Ok_inv, Call_Ok_inv in H
    as (fname & r & m' & Hf & _ & Hr & ->).
  exists fname, m'. now rewrite Hr.
Qed.

Lemma orPanic_context {A} (m : M G (option A)) e e' w a w' :
  orPanic m e w = Ok a w' -> orPanic m e' w = Ok a w'.
Proof.
  unfold orPanic, bind. destruct (m w) as [[x|] w1| |]; try discriminate.
  auto.
Qed.

Lemma readInt_Ok_inv stmt columnIndex w i w' :
  readInt stmt columnIndex w = Ok i w' ->
  exists f r rest m',
    columnInt (self w) = Some f /\
    i = int r /\
    w' = mkWorld (self w) m'
           (trace w ++ [EvCall f [uint64 stmt; uint64 columnIndex]
                          (Some (r :: rest))]).
Proof.
  unfold readInt. intros H.
  inv_bind H as m w0 E0. injection E0 as <- <-.
  inv_bind H as res w1 E1.
  apply (orPanic_context _ _ (CallError "")) in E1.
  apply Call_Some_inv in E1 as (f & m' & Hf & ->).
  inv_bind H as r0 w2 E2. apply first_Ok_inv in E2 as [-> [rest ->]].
  injection H as <- <-. exists f, r0, rest, m'. auto.
Qed.

Lemma readText_Ok_inv stmt columnIndex w t w' :
  readText stmt columnIndex w = Ok t w' ->
  exists ft fp fs rt p restp n restn m',
    columnText (self w) = Some ft /\
    getResultPtr (self w) = Some fp /\
    getResultSize (self w) = Some fs /\
    Memory.Read (buffer m') (uint32 p) (uint32 n) = Some t /\
    w' = mkWorld (self w) m'
           (trace w ++ [EvCall ft [uint64 stmt; uint64 columnIndex] (Some rt);
                        EvCall fp [] (Some (p :: restp));
                        EvCall fs [] (Some (n :: restn));
                        EvRead (uint32 p) (uint32 n) true]).
Proof.
  unfold readText. intros H.
  inv_bind H as m0 w0 E0. injection E0 as <- <-.
  inv_bind H as rt w1 E1.
  apply (orPanic_context _ _ (CallError "")) in E1.
  apply Call_Some_inv in E1 as (ft & m1 & Hft & ->).
  inv_bind H as m2 w2 E2. injection E2 as <- <-.
  inv_bind H as textPtr w3 E3.
  apply (orPanic_context _ _ (CallError "")) in E3.
  apply Call_Some_inv in E3 as (fp & m3 & Hfp & ->).
  inv_bind H as m4 w4 E4. injection E4 as <- <-.
  inv_bind H as textSize w5 E5.
  apply (orPanic_context _ _ (CallError "")) in E5.
  apply Call_Some_inv in E5 as (fs & m5 & Hfs & ->).
  inv_bind H as p w6 E6. apply first_Ok_inv in E6 as [-> [restp ->]].
  inv_bind H as n w7 E7. apply first_Ok_inv in E7 as [-> [restn ->]].
  cbv beta iota zeta in H.
  inv_bind H as raw w8 E8. injection H as <- <-.
  apply orPanic_Ok_inv in E8. unfold Read in E8.
  cbn [buffer machine self trace record] in E8.
  injection E8 as Hr <-.
  cbn [self] in *.
  exists ft, fp, fs, rt, p, restp, n, restn, m5.
  split; [exact Hft|]. split; [exact Hfp|]. split; [exact Hfs|].
  split; [exact Hr|].
  unfold record. cbn [self machine trace]. rewrite Hr. cbn [isSome].
  rewrite snoc3, <- app_assoc. reflexivity.
Qed.

Lemma execStep_Ok_world stmt w rc w' :
  execStep stmt w = Ok rc w' ->
  exists f rs m',
    step (self w) = Some f /\
    w' = mkWorld (self w) m' (trace w ++ [EvCall f [uint64 stmt] (Some rs)]).
Proof.
  intros H. apply execStep_Ok_inv in H as (r0 & rest & Hc & _ & _).
  apply Call_Ok_inv in Hc as (f & r & m' & Hf & _ & _ & ->).
  exists f, (r0 :: rest), m'. auto.
Qed.

(** The rows of a statement are read block by block. *)
Lemma Rows_blocks stmt rc w rows w' :
  Rows stmt rc w rows w' ->
  self w' = self w /\
  exists blocks,
    trace w' = trace w ++ List.concat blocks /\
    Forall2 (rowEvents (self w) stmt) rows blocks.
Proof.
  induction 1 as [rc w Hrc | w i w1 n w2 rc' w3 rows w' Hi Hn Hs _ IH].
  - split; [reflexivity|]. exists []. cbn [List.concat].
    rewrite app_nil_r. auto.
  - apply readInt_Ok_inv in Hi as (fi & ri & resti & m1 & Hfi & Hid & ->).
    apply readText_Ok_inv in Hn
      as (ft & fp & fs & rt & p & restp & sz & restn & m2
          & Hft & Hfp & Hfs & Hrd & ->).
    apply execStep_Ok_world in Hs as (fst & rs & m3 & Hfst & ->).
    cbn [self machine trace] in *.
    destruct IH as (Sf & blocks & T & F).
    split; [exact Sf|].
    exists ([EvCall fi [uint64 stmt; uint64 0] (Some (ri :: resti));
             EvCall ft [uint64 stmt; uint64 1] (Some rt);
             EvCall fp [] (Some (p :: restp));
             EvCall fs [] (Some (sz :: restn));
             EvRead (uint32 p) (uint32 sz) true;
             EvCall fst [uint64 stmt] (Some rs)] :: blocks).
    split.
    + rewrite T. cbn [List.concat]. rewrite <- !app_assoc. cbn [app].
      reflexivity.
    + constructor; [|exact F].
      exists fi, ft, fp, fs, fst, ri, resti, rt, p, restp, sz, restn, rs.
      repeat split; try assumption.
      apply (MemoryFacts.Read_length _ _ _ _
               (proj1 (uint32_range p)) (proj1 (uint32_range sz)) Hrd).
Qed.

End RowProtocol.

(** X7.  A query that returns did, after the prepare, one step and then,
    for each row it returns and in the order of the rows, exactly six
    interactions: the integer column 0, the text column 1,
    [get_result_ptr], [get_result_size], the read of the text, the next
    step.  The row's id is the result of its integer-column call and its
    name has the length its size accessor returned.  All the step and
    column calls carry the statement handle of the prepare, a non-zero
    32-bit value.  Nothing else happens: in particular the statement is
    never finalized. *)
Theorem execSelectUsers_protocol {G} {RT : Runtime G}
    (fuel : nat) (query : gostring) (w : World G) (users : list user)
    (w' : World G) :
  execSelectUsers fuel query w = Ok users w' ->
  exists stmt w1 fst rs blocks,
    execSelectUsers_prepare query w = Ok stmt w1 /\
    0 < stmt < 2 ^ 32 /\
    uint64 stmt = stmt /\
    step (self w) = Some fst /\
    trace w' =
    trace w1 ++ EvCall fst [uint64 stmt] (Some rs) :: List.concat blocks /\
    Forall2 (rowEvents (self w) stmt) users blocks.
Proof.
  unfold execSelectUsers. intros H.
  inv_bind H as stmt w1 Hp. inv_bind H as rc w2 Hs.
  apply loop_sound in H as (rows & E & HR). cbn [app] in E. subst rows.
  pose proof (execSelectUsers_prepare_Ok_inv _ _ _ _ Hp)
    as (evs & g & base & rest & _ & Sf & Hnz & _ & _ & Hrd).
  apply MemoryFacts.ReadUint32Le_range in Hrd.
  assert (P : 2 ^ 32 < 2 ^ 64) by reflexivity.
  apply execStep_Ok_world in Hs as (fst & rs & m' & Hfst & ->).
  apply Rows_blocks in HR as (_ & blocks & T & F).
  cbn [self machine trace] in *. rewrite Sf in *.
  exists stmt, w1, fst, rs, blocks. split; [exact Hp|].
  split; [lia|]. split; [apply uint64_small; lia|].
  split; [exact Hfst|]. split.
  - rewrite T, <- app_assoc. reflexivity.
  - exact F.
Qed.

Lemma execSelectUsers_protocol_witness :
  (* the prepare: envelope at 32, status 0, statement 5; then one row
     [(1, go)], its text at 8 *)
  let buf := zeros 32 ++ envelope 0 5 0 ++ zeros 4 in
  let text := zeros 8 ++ str "go" ++ zeros 38 in
  let w := opened 7 (zeros 48)
             [reply [0]; replyMem [] buf; reply [32];
              reply [100];
              reply [1]; replyMem [] text; reply [8]; reply [2];
              reply [101]] in
  exists w' stmt w1 fst rs blocks,
    execSelectUsers (RT := scripted allExports) 3 (str "SELECT 1") w
    = Ok [mkUser 1 (str "go")] w' /\
    execSelectUsers_prepare (RT := scripted allExports) (str "SELECT 1") w
    = Ok stmt w1 /\
    0 < stmt < 2 ^ 32 /\
    uint64 stmt = stmt /\
    step (self w) = Some fst /\
    trace w' =
    trace w1 ++ EvCall fst [uint64 stmt] (Some rs) :: List.concat blocks /\
    Forall2 (rowEvents (self w) stmt) [mkUser 1 (str "go")] blocks.
Proof.
  intros buf text w. eexists.
  assert (R : execSelectUsers (RT := scripted allExports) 3 (str "SELECT 1") w
              = Ok [mkUser 1 (str "go")] _) by (vm_compute; reflexivity).
  destruct (execSelectUsers_protocol (RT := scripted allExports)
              3 (str "SELECT 1") w _ _ R)
    as (stmt & w1 & fst & rs & blocks & H).
  exists stmt, w1, fst, rs, blocks. split; [exact R | exact H].
Defined.

(* ================================================================== *)
(** * The construction, step by step *)

Lemma ExportedFunction_Some {G} {RT : Runtime G} name f :
  ExportedFunction name = Some f -> exported name = true /\ f = name.
Proof.
  unfold ExportedFunction. destruct (exported name); [|discriminate].
  intros [= <-]. auto.
Qed.

(** X8.  A construction that succeeds made exactly eight interactions:
    the allocation and the write of the database name [:memory:] (8
    bytes), the allocation and the write of the empty file-system name,
    the open call with the two strings and the flags 6 between them, the
    call of [get_result_ptr], and the reads of the status and of the
    handle.  It needs the instantiation to succeed and the three exports
    it calls, no other; and the handle it keeps is a 32-bit value. *)
Theorem newSqlModule_protocol {G} {RT : Runtime G} (w w' : World G) :
  newSqlModule w = Ok tt w' ->
  (exists sqlite, InstantiateModule (machine w) = Some sqlite) /\
  exported "allocate" = true /\
  exported "sqlite3_open_v2" = true /\
  exported "get_result_ptr" = true /\
  0 <= dbHandle (self w') < 2 ^ 32 /\
  exists p1 r1 p2 r2 ro base rest,
    trace w' =
    trace w ++
    [EvCall "allocate" [8; 0] (Some (p1 :: r1));
     EvWrite (uint32 p1) (str ":memory:") true;
     EvCall "allocate" [0; 0] (Some (p2 :: r2));
     EvWrite (uint32 p2) [] true;
     EvCall "sqlite3_open_v2" [p1; 8; 6; p2; 0] (Some ro);
     EvCall "get_result_ptr" [] (Some (base :: rest));
     EvReadUint32Le (uint32 base) true;
     EvReadUint32Le (uint32 (uint32 base + 4)) true].
Proof.
  unfold newSqlModule. intros H.
  inv_bind H as u0 w0 E0.
  destruct (InstantiateModule (machine w)) as [sqlite|] eqn:Hinst;
    [|discriminate].
  injection E0 as <-.
  inv_bind H as u1 w1 E1. unfold setSelf in E1. injection E1 as _ <-.
  inv_bind H as h w2 E2.
  inv_bind H as s3 w3 E3. injection E3 as <- <-.
  unfold setSelf in H. injection H as <-.
  unfold newSqlModule_open in E2.
  inv_bind E2 as q1 v1 A1. destruct q1 as [dbNamePtr dbNameSize].
  apply allocateString_Ok_inv in A1
    as (f1 & x1 & r1 & m1 & buf1 & Hf1 & _ & _ & _ & -> & ->).
  inv_bind E2 as q2 v2 A2. destruct q2 as [fsNamePtr fsNameSize].
  apply allocateString_Ok_inv in A2
    as (f2 & x2 & r2 & m2 & buf2 & Hf2 & _ & _ & _ & -> & ->).
  inv_bind E2 as s4 v4 A4. injection A4 as <- <-.
  inv_bind E2 as ro v5 A5. apply Call_Some_inv in A5 as (fo & m3 & Hfo & ->).
  inv_bind E2 as s6 v6 A6. injection A6 as <- <-.
  inv_bind E2 as res v7 A7. apply Call_Some_inv in A7 as (fg & m4 & Hfg & ->).
  inv_bind E2 as base v8 A8. apply first_Ok_inv in A8 as [-> [rest ->]].
  inv_bind E2 as u9 v9 A9. rewrite ensureStatusCodeSuccess_run in A9.
  cbn [buffer machine] in A9.
  destruct (Memory.ReadUint32Le (buffer m4) (uint32 base)) as [c|];
    [|discriminate].
  destruct (c =? 0); [|discriminate].
  injection A9 as A9. subst v9.
  apply orPanic_Ok_inv in E2. unfold ReadUint32Le in E2.
  cbn [buffer machine record] in E2. injection E2 as Hh <-.
  cbn [self machine trace alloc open getResultPtr] in *.
  apply ExportedFunction_Some in Hf1 as [Xa ->].
  apply ExportedFunction_Some in Hfo as [Xo ->].
  apply ExportedFunction_Some in Hfg as [Xg ->].
  apply ExportedFunction_Some in Hf2 as [_ ->].
  pose proof (MemoryFacts.ReadUint32Le_range _ _ _ Hh) as Rh.
  assert (P : 2 ^ 32 < 2 ^ 64) by reflexivity.
  split; [eauto|]. split; [exact Xa|]. split; [exact Xo|].
  split; [exact Xg|]. split.
  - cbn [dbHandle]. rewrite uint64_small by lia. exact Rh.
  - exists dbNamePtr, r1, fsNamePtr, r2, ro, base, rest.
    subst w0. unfold record. cbn [self machine trace].
    rewrite Hh. cbn [isSome]. rewrite uint32_add.
    rewrite <- !app_assoc. cbn [app].
    change (uint64 (len (str ":memory:"))) with 8.
    change (uint64 (len (str ""))) with 0.
    reflexivity.
Qed.

Lemma newSqlModule_protocol_witness :
  (* a module with the three exports only; the envelope at 16 with
     status 0 and handle 7 *)
  let three :=
    onlyExports ["allocate"%string; "sqlite3_open_v2"%string;
                 "get_result_ptr"%string] in
  let buf := zeros 16 ++ envelope 0 7 0 ++ zeros 4 in
  let w := boot (zeros 32)
             [reply [0]; reply [8]; replyMem [] buf; reply [16]] in
  exists w',
    newSqlModule (RT := scripted three) w = Ok tt w' /\
    step (self w') = None /\
    (exists sqlite,
        InstantiateModule (Runtime := scripted three) (machine w)
        = Some sqlite) /\
    exported (Runtime := scripted three) "allocate" = true /\
    exported (Runtime := scripted three) "sqlite3_open_v2" = true /\
    exported (Runtime := scripted three) "get_result_ptr" = true /\
    0 <= dbHandle (self w') < 2 ^ 32 /\
    exists p1 r1 p2 r2 ro base rest,
      trace w' =
      trace w ++
      [EvCall "allocate" [8; 0] (Some (p1 :: r1));
       EvWrite (uint32 p1) (str ":memory:") true;
       EvCall "allocate" [0; 0] (Some (p2 :: r2));
       EvWrite (uint32 p2) [] true;
       EvCall "sqlite3_open_v2" [p1; 8; 6; p2; 0] (Some ro);
       EvCall "get_result_ptr" [] (Some (base :: rest));
       EvReadUint32Le (uint32 base) true;
       EvReadUint32Le (uint32 (uint32 base + 4)) true].
Proof.
  intros three buf w. eexists.
  assert (R : newSqlModule (RT := scripted three) w = Ok tt _)
    by (vm_compute; reflexivity).
  split; [exact R|]. split; [reflexivity|].
  exact (newSqlModule_protocol (RT := scripted three) w _ R).
Defined.

(* ================================================================== *)
(** * A status that is not zero *)

(** X9.  When the status of the prepare is not zero, the query panics
    with that status and the fixed text [failed to prepare]: unlike
    [execSql] it does not fetch the engine's message, the read of the
    status is its only access to the envelope, and no step is made. *)
Theorem execSelectUsers_prepare_refused {G} {RT : Runtime G}
    (fuel : nat) (query : gostring) (w w1 w2 w3 : World G)
    (queryPtr querySize base status : Z) (r rest : list Z) :
  allocateString query w = Ok (queryPtr, querySize) w1 ->
  Call (prepare (self w1)) [dbHandle (self w1); queryPtr; querySize] w1
  = Ok (Some r) w2 ->
  Call (getResultPtr (self w2)) [] w2 = Ok (Some (base :: rest)) w3 ->
  Memory.ReadUint32Le (buffer (machine w3)) (uint32 base) = Some status ->
  status <> 0 ->
  execSelectUsers fuel query w =
  Panic (EngineError status (str "failed to prepare"))
    (record (EvReadUint32Le (uint32 base) true) w3).
Proof.
  intros Ha Hp Hg Hs Hnz.
  unfold execSelectUsers, execSelectUsers_prepare.
  run_with Ha. run_with Hp. run_with Hg.
  rewrite ensureStatusCodeSuccess_run, Hs.
  destruct (Z.eqb_spec status 0) as [E | _]; [contradiction|].
  reflexivity.
Qed.

Lemma execSelectUsers_prepare_refused_witness :
  (* the envelope at 16: status 1 and a message of 3 bytes at 32 that the
     query does not read *)
  let buf := zeros 16 ++ envelope 1 32 3 ++ zeros 4 ++ str "bad" ++ zeros 9 in
  let w := opened 7 (zeros 48) [reply [0]; replyMem [] buf; reply [16]] in
  exists w3,
    execSelectUsers (RT := scripted allExports) 3 (str "SELECT 1") w =
    Panic (EngineError 1 (str "failed to prepare"))
      (record (EvReadUint32Le (uint32 16) true) w3) /\
    trace w3 =
    [EvCall "allocate" [8; 0] (Some [0]);
     EvWrite 0 (str "SELECT 1") true;
     EvCall "sqlite3_prepare_v2" [7; 0; 8] (Some []);
     EvCall "get_result_ptr" [] (Some [16])].
Proof.
  intros buf w. eexists. split.
  - eapply (execSelectUsers_prepare_refused (RT := scripted allExports)
              3 (str "SELECT 1") w _ _ _ 0 8 16 1 [] []).
    + vm_compute. reflexivity.
    + vm_compute. reflexivity.
    + vm_compute. reflexivity.
    + vm_compute. reflexivity.
    + discriminate.
  - reflexivity.
Defined.

(** X10.  When the status of the open is not zero, the construction
    panics with that status and the fixed text [db pointer].  The handle
    is not read, and the struct it leaves has the exports bound but the
    handle still zero. *)
Theorem newSqlModule_open_refused {G} {RT : Runtime G}
    (w w1 w2 w3 w4 : World G) (sqlite : Machine G)
    (dbNamePtr dbNameSize fsNamePtr fsNameSize base status : Z)
    (r rest : list Z) :
  InstantiateModule (machine w) = Some sqlite ->
  allocateString (str ":memory:") (mkWorld unopened sqlite (trace w))
  = Ok (dbNamePtr, dbNameSize) w1 ->
  allocateString (str "") w1 = Ok (fsNamePtr, fsNameSize) w2 ->
  Call (open (self w2)) [dbNamePtr; dbNameSize; 6; fsNamePtr; fsNameSize] w2
  = Ok (Some r) w3 ->
  Call (getResultPtr (self w3)) [] w3 = Ok (Some (base :: rest)) w4 ->
  Memory.ReadUint32Le (buffer (machine w4)) (uint32 base) = Some status ->
  status <> 0 ->
  newSqlModule w =
  Panic (EngineError status (str "db pointer"))
    (record (EvReadUint32Le (uint32 base) true) w4) /\
  self w4 = unopened /\
  dbHandle (self w4) = 0.
Proof.
  intros Hi Ha1 Ha2 Ho Hg Hs Hnz.
  assert (S4 : self w4 = unopened).
  { apply Call_Ok_inv in Hg as (? & ? & ? & _ & _ & _ & ->).
    apply Call_Ok_inv in Ho as (? & ? & ? & _ & _ & _ & ->).
    apply allocateString_Ok_inv in Ha2
      as (? & ? & ? & ? & ? & _ & _ & _ & _ & _ & ->).
    apply allocateString_Ok_inv in Ha1
      as (? & ? & ? & ? & ? & _ & _ & _ & _ & _ & ->).
    reflexivity. }
  split; [|split; [exact S4 | now rewrite S4]].
  unfold newSqlModule. unfold bind at 1. rewrite Hi.
  unfold bind at 1, setSelf at 1. cbn [self machine trace].
  apply bind_Panic. unfold newSqlModule_open.
  fold (@unopened G RT).
  run_with Ha1. run_with Ha2. run_with Ho. run_with Hg.
  rewrite ensureStatusCodeSuccess_run, Hs.
  destruct (Z.eqb_spec status 0) as [E | _]; [contradiction|].
  reflexivity.
Qed.

Lemma newSqlModule_open_refused_witness :
  (* the envelope at 16: status 14, and a word 7 where a handle would be *)
  let buf := zeros 16 ++ envelope 14 7 0 ++ zeros 4 in
  let w := boot (zeros 32)
             [reply [0]; reply [8]; replyMem [] buf; reply [16]] in
  exists w4,
    newSqlModule (RT := scripted allExports) w =
    Panic (EngineError 14 (str "db pointer"))
      (record (EvReadUint32Le (uint32 16) true) w4) /\
    self w4 = unopened (RT := scripted allExports) /\
    dbHandle (self w4) = 0.
Proof.
  intros buf w. eexists.
  eapply (newSqlModule_open_refused (RT := scripted allExports)
            w _ _ _ _ (mkMachine (zeros 32) _) 0 8 8 0 16 14 [] []).
  - reflexivity.
  - vm_compute. reflexivity.
  - vm_compute. reflexivity.
  - vm_compute. reflexivity.
  - vm_compute. reflexivity.
  - vm_compute. reflexivity.
  - discriminate.
Defined.

(* ================================================================== *)
(** * An export that is missing *)

(** X11.  The construction does not check the exports it binds, so a
    missing exec or prepare export shows at the first statement, and
    only after the statement's text has been allocated and written into
    the guest: [execSql] and [execSelectUsers] panic on the nil reference
    in the world that [allocateString] left. *)
Theorem missing_export_fails_after_allocation {G} {RT : Runtime G}
    (query : gostring) (w w1 : World G) (queryPtr querySize : Z) :
  allocateString query w = Ok (queryPtr, querySize) w1 ->
  (exported "sqlite3_exec" = false ->
   exec (self w) = ExportedFunction "sqlite3_exec" ->
   execSql query w = Panic NilDereference w1) /\
  (exported "sqlite3_prepare_v2" = false ->
   prepare (self w) = ExportedFunction "sqlite3_prepare_v2" ->
   forall fuel, execSelectUsers fuel query w = Panic NilDereference w1) /\
  (exists buf,
      Memory.Write buf (uint32 queryPtr) query = Some (buffer (machine w1))) /\
  exists evs, trace w1 = trace w ++ evs ++ [EvWrite (uint32 queryPtr) query true].
Proof.
  intros Ha.
  pose proof (allocateString_Ok_inv _ _ _ _ _ Ha)
    as (f & r0 & rest & m' & buf' & _ & _ & _ & Hw & _ & Hw1).
  assert (Sf : self w1 = self w) by (rewrite Hw1; reflexivity).
  split; [|split; [|split]].
  - intros Hx Hb. unfold ExportedFunction in Hb. rewrite Hx in Hb.
    unfold execSql. run_with Ha. rewrite Sf, Hb. reflexivity.
  - intros Hx Hb fuel. unfold ExportedFunction in Hb. rewrite Hx in Hb.
    unfold execSelectUsers, execSelectUsers_prepare.
    run_with Ha. rewrite Sf, Hb. reflexivity.
  - exists (buffer m'). rewrite Hw1. exact Hw.
  - eexists [_]. rewrite Hw1. reflexivity.
Qed.

Lemma missing_export_fails_after_allocation_witness :
  let w : World (list Reply) :=
    mkWorld (unopened (RT := scripted (without "sqlite3_exec")))
      (mkMachine (zeros 16) [reply [4]]) [] in
  let w1 : World (list Reply) :=
    mkWorld (unopened (RT := scripted (without "sqlite3_exec")))
      (mkMachine (zeros 4 ++ str "DROP x" ++ zeros 6) [])
      [EvCall "allocate" [6; 0] (Some [4]); EvWrite 4 (str "DROP x") true] in
  let v : World (list Reply) :=
    mkWorld (unopened (RT := scripted (without "sqlite3_prepare_v2")))
      (mkMachine (zeros 16) [reply [4]]) [] in
  let v1 : World (list Reply) :=
    mkWorld (unopened (RT := scripted (without "sqlite3_prepare_v2")))
      (mkMachine (zeros 4 ++ str "DROP x" ++ zeros 6) [])
      [EvCall "allocate" [6; 0] (Some [4]); EvWrite 4 (str "DROP x") true] in
  execSql (RT := scripted (without "sqlite3_exec")) (str "DROP x") w
  = Panic NilDereference w1 /\
  execSelectUsers (RT := scripted (without "sqlite3_prepare_v2")) 3
    (str "DROP x") v
  = Panic NilDereference v1.
Proof.
  intros w w1 v v1. split.
  - apply (missing_export_fails_after_allocation
             (RT := scripted (without "sqlite3_exec"))
             (str "DROP x") w w1 4 6).
    + vm_compute. reflexivity.
    + reflexivity.
    + reflexivity.
  - apply (missing_export_fails_after_allocation
             (RT := scripted (without "sqlite3_prepare_v2"))
             (str "DROP x") v v1 4 6).
    + vm_compute. reflexivity.
    + reflexivity.
    + reflexivity.
Defined.
